(** * Teemake: a shallow embedding of [teemake.py]

    The interactive build wizard of the repository, embedded function by
    function.  Python [str] values are modelled as [string], one [ascii]
    per character: the embedding is exact for ASCII text, which is what
    the catalog holds and what the prompts are answered with; a character
    above 127 is kept as a symbol that is neither a space, a digit nor a
    letter.  Dictionaries that are only read by key are [gmap]s; the
    configuration dictionary, whose iteration order is observable, is an
    insertion-ordered association list.  Effects are explicit: the
    terminal is a tape of lines, launched processes and the file system
    are answers of a [host], and the working directory, the commands run
    and the files written are threaded through a state-and-exception
    monad.

    Console output ([console.print], tables, panels, the progress bar,
    [os.system('clear')]) is left out: the embedding describes the runs
    in which printing succeeds.  The console reads what it prints as
    markup and raises [MarkupError] on a closing tag that matches no
    open one, which a text typed by the user or captured from a process
    can hold; where a property depends on such a text being printed it
    is stated for text without a square bracket ([plain_text]).  The
    log of the world records the invocations of [run_command], which is
    how the stages of the build are launched; the two [sudo] probes and
    the screen clears are launched directly and are not in it. *)

From Stdlib Require Import ZArith QArith Ascii String List Bool Lia DecimalString.
From stdpp Require Import base gmap strings list.

Local Open Scope string_scope.
Local Open Scope list_scope.
Local Open Scope nat_scope.

(** ** Python string primitives *)

Module Py.

Definition code (c : ascii) : nat := nat_of_ascii c.

Definition newline : ascii := ascii_of_nat 10.

(** [str.isspace] on one ASCII character: TAB, LF, VT, FF, CR, the four
    separators FS GS RS US, and the space. *)
Definition is_space (c : ascii) : bool :=
  let n := code c in
  ((9 <=? n) && (n <=? 13)) || ((28 <=? n) && (n <=? 32)).

Definition is_digit (c : ascii) : bool :=
  let n := code c in (48 <=? n) && (n <=? 57).

Definition upper_char (c : ascii) : ascii :=
  let n := code c in
  if (97 <=? n) && (n <=? 122) then ascii_of_nat (n - 32) else c.

Definition lower_char (c : ascii) : ascii :=
  let n := code c in
  if (65 <=? n) && (n <=? 90) then ascii_of_nat (n + 32) else c.

Fixpoint map_chars (f : ascii -> ascii) (s : string) : string :=
  match s with
  | EmptyString => EmptyString
  | String c s' => String (f c) (map_chars f s')
  end.

(** [s.upper()] and [s.lower()]. *)
Definition upper : string -> string := map_chars upper_char.
Definition lower : string -> string := map_chars lower_char.

(** [s.lstrip()], [s.rstrip()], [s.strip()]. *)
Fixpoint lstrip (s : string) : string :=
  match s with
  | EmptyString => EmptyString
  | String c s' => if is_space c then lstrip s' else s
  end.

Definition rstrip (s : string) : string :=
  String.rev (lstrip (String.rev s)).

Definition strip (s : string) : string := lstrip (rstrip s).

(** [sub in s]. *)
Fixpoint contains (sub s : string) : bool :=
  String.prefix sub s ||
  match s with
  | EmptyString => false
  | String _ s' => contains sub s'
  end.

(** [c in s] for one character. *)
Fixpoint has_char (c : ascii) (s : string) : bool :=
  match s with
  | EmptyString => false
  | String d s' => Ascii.eqb c d || has_char c s'
  end.

(** [s.split(sep, 1)] for a one-character separator that occurs in
    [s]: the text before the first occurrence and the text after it.
    Without an occurrence the whole text is the first component. *)
Fixpoint split_once (sep : ascii) (s : string) : string * string :=
  match s with
  | EmptyString => (EmptyString, EmptyString)
  | String c s' =>
      if Ascii.eqb c sep then (EmptyString, s')
      else let '(a, b) := split_once sep s' in (String c a, b)
  end.

(** [s.split()]: maximal runs of non-space characters.  [cur] is the
    word being scanned, if one has been started. *)
Definition flush (cur : option string) : list string :=
  match cur with Some w => [w] | None => [] end.

Definition push (cur : option string) (c : ascii) : option string :=
  match cur with
  | Some w => Some (w +:+ String c EmptyString)
  | None => Some (String c EmptyString)
  end.

Fixpoint split_from (cur : option string) (s : string) : list string :=
  match s with
  | EmptyString => flush cur
  | String c s' =>
      if is_space c then flush cur ++ split_from None s'
      else split_from (push cur c) s'
  end.

Definition split (s : string) : list string := split_from None s.

(** [s.isdigit()]: non-empty and every character a digit. *)
Fixpoint all_digits (s : string) : bool :=
  match s with
  | EmptyString => true
  | String c s' => is_digit c && all_digits s'
  end.

Definition isdigit (s : string) : bool :=
  match s with
  | EmptyString => false
  | _ => all_digits s
  end.

(** [int(s)] in base ten: surrounding white space is dropped, one sign
    is allowed, and single underscores may separate digits; a text of
    more than 4300 digits is refused (the default limit of CPython 3.11
    and later).  [None] stands for [ValueError]. *)
Fixpoint int_digits (acc : Z) (after_digit : bool) (s : string) : option Z :=
  match s with
  | EmptyString => if after_digit then Some acc else None
  | String c s' =>
      if Ascii.eqb c "_" then
        if after_digit then int_digits acc false s' else None
      else if is_digit c then
        int_digits (10 * acc + Z.of_nat (code c - 48)) true s'
      else None
  end.

Fixpoint count_digits (s : string) : Z :=
  match s with
  | EmptyString => 0
  | String c s' => ((if is_digit c then 1 else 0) + count_digits s')%Z
  end.

Definition int (s : string) : option Z :=
  if (4300 <? count_digits (strip s))%Z then None
  else
    match strip s with
    | String "+" r => int_digits 0 false r
    | String "-" r => Z.opp <$> int_digits 0 false r
    | t => int_digits 0 false t
    end.

(** [str(n)] for a natural number. *)
Definition str_nat (n : nat) : string := NilZero.string_of_uint (Nat.to_uint n).

(** [" ".join(...)]-style helpers used by the f-strings of the source. *)
Definition concat (l : list string) : string := foldr String.app EmptyString l.

End Py.

(** ** Server-name validation *)

(** The character class [[a-zA-Z0-9_-]]. *)
Definition name_char (c : ascii) : bool :=
  let n := Py.code c in
  ((97 <=? n) && (n <=? 122)) || ((65 <=? n) && (n <=? 90)) ||
  ((48 <=? n) && (n <=? 57)) || Ascii.eqb c "_" || Ascii.eqb c "-".

(** Where [$] matches (no [re.MULTILINE]): at the end of the text, and
    just before a line feed that is the last character. *)
Definition at_dollar (s : string) : bool :=
  match s with
  | EmptyString => true
  | String c EmptyString => Ascii.eqb c Py.newline
  | _ => false
  end.

(** The tail [[a-zA-Z0-9_-]*$] of the pattern.  A match exists exactly
    when some number of class characters can be consumed so that [$]
    matches at the position reached, which is what the backtracking
    matcher decides. *)
Fixpoint class_star_dollar (s : string) : bool :=
  at_dollar s ||
  match s with
  | EmptyString => false
  | String c s' => name_char c && class_star_dollar s'
  end.

(** [re.match(r'^[a-zA-Z0-9_-]+$', name)] as a truth value. *)
Definition re_match_name (name : string) : bool :=
  match name with
  | EmptyString => false
  | String c s' => name_char c && class_star_dollar s'
  end.

Definition validate_server_name (name : string) : bool :=
  if Py.contains ".." name || Py.contains "/" name || Py.contains "\" name
  then false
  else if negb (re_match_name name) then false
  else if (String.length name <? 1) || (64 <? String.length name) then false
  else true.

(** The validation rule as the specification words it. *)
Fixpoint all_name_chars (s : string) : bool :=
  match s with
  | EmptyString => true
  | String c s' => name_char c && all_name_chars s'
  end.

Definition spec_valid_name (name : string) : bool :=
  (1 <=? String.length name) && (String.length name <=? 64) &&
  all_name_chars name &&
  negb (Py.contains ".." name) && negb (Py.contains "/" name) &&
  negb (Py.contains "\" name).

(** ** Outcomes of effectful code *)

(** The exceptions the program can meet.  [KeyboardInterrupt] derives
    from [BaseException] only, so [except Exception] does not catch it. *)
Inductive exn :=
| TimeoutExpired
| EOFError
| ValueError
| IndexError
| FileNotFoundError (msg : string)
| OSError (msg : string)
| KeyboardInterrupt.

Definition is_Exception (e : exn) : bool :=
  match e with KeyboardInterrupt => false | _ => true end.

(** [str(e)]. *)
Definition str_exn (e : exn) : string :=
  match e with
  | TimeoutExpired => "Command timed out"
  | EOFError => "EOF when reading a line"
  | ValueError => "invalid literal for int() with base 10"
  | IndexError => "list index out of range"
  | FileNotFoundError msg => msg
  | OSError msg => msg
  | KeyboardInterrupt => ""
  end.

Inductive outcome (A : Type) :=
| Return (a : A)
| Raise (e : exn).
Arguments Return {A} a.
Arguments Raise {A} e.

(** ** The catalog *)

Inductive PackageManager := APT | DNF | YUM | PACMAN | ZYPPER | UNKNOWN.

Module PackageManagerEnum.
Definition value (pm : PackageManager) : string :=
  match pm with
  | APT => "apt-get"
  | DNF => "dnf"
  | YUM => "yum"
  | PACMAN => "pacman"
  | ZYPPER => "zypper"
  | UNKNOWN => "unknown"
  end.
End PackageManagerEnum.

Module GameMode.
Record t := mk {
  name : string;
  url : string;
  dependencies : gmap string string;
  build_opts : list string
}.
End GameMode.

Module BuildOption.
Record t := mk {
  name : string;
  description : string;
  current_value : string;
  option_type : string
}.
End BuildOption.

Module ConfigSetting.
Record t := mk {
  key : string;
  prompt : string;
  default : string;
  description : string
}.
End ConfigSetting.

(** A dictionary display [{k1: v1, ...}]: later entries win. *)
Definition dict {V : Type} (items : list (string * V)) : gmap string V :=
  foldl (fun m kv => <[kv.1 := kv.2]> m) ∅ items.

(** [d.get(k, v)]. *)
Definition get {V : Type} (d : gmap string V) (k : string) (v : V) : V :=
  default v (d !! k).

Definition Teeworlds : GameMode.t :=
  GameMode.mk "Teeworlds" "https://github.com/teeworlds/teeworlds.git"
    (dict [("apt-get", "libpnglite-dev libwavpack-dev");
           ("dnf", "libpng-devel wavpack-devel");
           ("yum", "libpng-devel wavpack-devel");
           ("pacman", "libpng wavpack");
           ("zypper", "libpng16-devel wavpack-devel")])
    ["cmake"; "../source/"; "-DCLIENT=OFF"; "-DSERVER=ON"].

Definition DDNet : GameMode.t :=
  GameMode.mk "DDNet" "https://github.com/ddnet/ddnet.git"
    (dict [("apt-get", "libvulkan-dev libsqlite3-dev libcurl4-openssl-dev");
           ("dnf", "vulkan-devel sqlite-devel libcurl-devel");
           ("yum", "vulkan-devel sqlite-devel libcurl-devel");
           ("pacman", "vulkan-icd-loader sqlite curl");
           ("zypper", "vulkan-devel sqlite3-devel libcurl-devel")])
    ["cmake"; "../source/"; "-DCLIENT=OFF"; "-DSERVER=ON"].

Definition zCatch : GameMode.t :=
  GameMode.mk "zCatch" "https://github.com/jxsl13/zcatch.git"
    (dict [("apt-get", "libcurl4-openssl-dev");
           ("dnf", "libcurl-devel");
           ("yum", "libcurl-devel");
           ("pacman", "curl");
           ("zypper", "libcurl-devel")])
    ["cmake"; "../source/"; "-DCLIENT=OFF"; "-DSERVER=ON"].

Definition GAME_MODES : list GameMode.t := [Teeworlds; DDNet; zCatch].

Definition AVAILABLE_BUILD_OPTIONS : gmap string (list BuildOption.t) :=
  dict [
    ("Teeworlds", [
      BuildOption.mk "-DCLIENT" "Build client" "OFF" "boolean";
      BuildOption.mk "-DSERVER" "Build server" "ON" "boolean";
      BuildOption.mk "-DMASTERSERVER" "Build masterserver" "OFF" "boolean";
      BuildOption.mk "-DTOOLS" "Build tools" "OFF" "boolean";
      BuildOption.mk "-DDEV" "Development mode" "OFF" "boolean";
      BuildOption.mk "-GNinja" "Use Ninja build system (faster)" "OFF" "generator"]);
    ("DDNet", [
      BuildOption.mk "-DCLIENT" "Build client" "OFF" "boolean";
      BuildOption.mk "-DSERVER" "Build server" "ON" "boolean";
      BuildOption.mk "-DTOOLS" "Build tools" "OFF" "boolean";
      BuildOption.mk "-DMYSQL" "Enable MySQL support" "OFF" "boolean";
      BuildOption.mk "-DWEBSOCKETS" "Enable WebSocket support" "OFF" "boolean";
      BuildOption.mk "-DVIDEORECORDER" "Enable video recorder" "OFF" "boolean";
      BuildOption.mk "-DUPNP" "Enable UPnP support" "OFF" "boolean";
      BuildOption.mk "-DSTEAM" "Enable Steam integration" "OFF" "boolean";
      BuildOption.mk "-DPREFER_BUNDLED_LIBS" "Use bundled libraries" "OFF" "boolean";
      BuildOption.mk "-GNinja" "Use Ninja build system (faster)" "OFF" "generator"]);
    ("zCatch", [
      BuildOption.mk "-DCLIENT" "Build client" "OFF" "boolean";
      BuildOption.mk "-DSERVER" "Build server" "ON" "boolean";
      BuildOption.mk "-DTOOLS" "Build tools" "OFF" "boolean";
      BuildOption.mk "-DDEV" "Development mode" "OFF" "boolean";
      BuildOption.mk "-GNinja" "Use Ninja build system (faster)" "OFF" "generator"])].

Definition BASE_DEPS : gmap string string :=
  dict [("apt-get", "build-essential cmake git python3 libfreetype6-dev libsdl2-dev");
        ("dnf", "gcc gcc-c++ make cmake git python3 freetype-devel SDL2-devel");
        ("yum", "gcc gcc-c++ make cmake git python3 freetype-devel SDL2-devel");
        ("pacman", "base-devel cmake git python freetype2 sdl2");
        ("zypper", "gcc gcc-c++ make cmake git python3 freetype2-devel libSDL2-devel")].

Definition MIN_DISK_SPACE_MB : Z := 2000.

Definition BASIC_CONFIG_SETTINGS : gmap string (list ConfigSetting.t) :=
  dict [
    ("Teeworlds", [
      ConfigSetting.mk "sv_name" "Server Name" "My Teeworlds Server" "The name of your server";
      ConfigSetting.mk "sv_port" "Server Port" "8303" "Port number (default: 8303)";
      ConfigSetting.mk "sv_max_clients" "Maximum Players" "16" "Maximum number of players";
      ConfigSetting.mk "sv_gametype" "Game Type" "dm" "Game type (dm, tdm, ctf)"]);
    ("DDNet", [
      ConfigSetting.mk "sv_name" "Server Name" "My DDNet Server" "The name of your server";
      ConfigSetting.mk "sv_port" "Server Port" "8303" "Port number (default: 8303)";
      ConfigSetting.mk "sv_max_clients" "Maximum Players" "64" "Maximum number of players";
      ConfigSetting.mk "sv_gametype" "Game Type" "DDraceNetwork" "Game type"]);
    ("zCatch", [
      ConfigSetting.mk "sv_name" "Server Name" "My zCatch Server" "The name of your server";
      ConfigSetting.mk "sv_port" "Server Port" "8303" "Port number (default: 8303)";
      ConfigSetting.mk "sv_max_clients" "Maximum Players" "16" "Maximum number of players";
      ConfigSetting.mk "sv_gametype" "Game Type" "zCatch" "Game type"])].

(** ** The terminal *)

(** Standard input is a tape of lines; [input()] and [Prompt.ask] each
    take the next one, and raise [EOFError] on an exhausted tape.  The
    answers to [Confirm.ask] are supplied to the functions that ask. *)
Definition tape := list string.

(** What [Prompt.ask] makes of the line typed: an empty line gives the
    default when there is one, any other line is stripped. *)
Definition Prompt_ask (default : option string) (line : string) : string :=
  match default, line with
  | Some d, EmptyString => d
  | _, _ => Py.strip line
  end.

(** ** Build-option customization *)

Record cust_state := {
  current_options : gmap string string;
  use_ninja : bool
}.

Definition mem (x : string) (l : list string) : bool :=
  existsb (String.eqb x) l.
Arguments mem : simpl never.

Definition truthy_tokens : list string := ["ON"; "YES"; "TRUE"; "1"].
Definition boolean_tokens : list string :=
  ["ON"; "OFF"; "YES"; "NO"; "TRUE"; "FALSE"; "1"; "0"].

(** [current_options[k] = v]. *)
Definition set_option (st : cust_state) (k v : string) : cust_state :=
  {| current_options := <[k := v]> (current_options st);
     use_ninja := use_ninja st |}.

(** The branch taken for an option of kind ["generator"]. *)
Definition set_generator (opt : BuildOption.t) (value : string) (st : cust_state)
  : cust_state :=
  if mem (Py.upper value) truthy_tokens then
    {| current_options := <[BuildOption.name opt := "ON"]> (current_options st);
       use_ninja := if String.eqb (BuildOption.name opt) "-GNinja" then true
                    else use_ninja st |}
  else
    {| current_options := <[BuildOption.name opt := "OFF"]> (current_options st);
       use_ninja := if String.eqb (BuildOption.name opt) "-GNinja" then false
                    else use_ninja st |}.

Definition normalized (value : string) : string :=
  if mem (Py.upper value) truthy_tokens then "ON" else "OFF".

(** One pass of the [while True] loop either leaves the loop, or goes
    round again with a new state after [pauses] calls of [input()]
    ("Press Enter to continue"), or raises. *)
Inductive step :=
| Break
| Next (st : cust_state) (pauses : nat)
| Throw (e : exn).

(** [<#>=<value>] with the number already read. *)
Definition assign_by_index (available : list BuildOption.t) (idx : Z)
    (value : string) (st : cust_state) : step :=
  if (1 <=? idx)%Z && (idx <=? Z.of_nat (length available))%Z then
    match available !! Z.to_nat (idx - 1) with
    | None => Throw IndexError
    | Some opt =>
        if String.eqb (BuildOption.option_type opt) "generator" then
          Next (set_generator opt value st) 0
        else if String.eqb (BuildOption.option_type opt) "boolean" then
          if negb (mem (Py.upper value) boolean_tokens) then Next st 1
          else Next (set_option st (BuildOption.name opt) (normalized value)) 0
        else Next (set_option st (BuildOption.name opt) value) 0
    end
  else Next st 1.

(** [for opt in available_options] of the name form.  A [break] ends the
    scan; the [continue] after a rejected boolean value belongs to this
    [for] and moves on to the next table entry.  The result is the state,
    [option_exists], and the number of pauses so far. *)
Fixpoint scan_by_name (opts : list BuildOption.t) (option_part value : string)
    (st : cust_state) (option_exists : bool) (pauses : nat)
  : cust_state * bool * nat :=
  match opts with
  | [] => (st, option_exists, pauses)
  | opt :: rest =>
      if String.eqb (BuildOption.name opt) option_part then
        if String.eqb (BuildOption.option_type opt) "generator" then
          (set_generator opt value st, true, pauses)
        else if String.eqb (BuildOption.option_type opt) "boolean" then
          if negb (mem (Py.upper value) boolean_tokens) then
            scan_by_name rest option_part value st true (S pauses)
          else (set_option st (BuildOption.name opt) (normalized value), true, pauses)
        else (set_option st (BuildOption.name opt) value, true, pauses)
      else scan_by_name rest option_part value st option_exists pauses
  end.

(** [<option>=<value>]. *)
Definition assign_by_name (available : list BuildOption.t)
    (option_part value : string) (st : cust_state) : step :=
  let '(st', option_exists, pauses) :=
    scan_by_name available option_part value st false 0 in
  if negb option_exists then Next st' (S pauses) else Next st' pauses.

(** What the line typed at the prompt asks for. *)
Inductive request :=
| Done
| Assign (option_part value : string)
| NinjaShorthand
| Malformed.

Definition parse_line (line : string) : request :=
  let user_input := Py.strip (Prompt_ask (Some "") line) in
  if String.eqb user_input "" || String.eqb (Py.lower user_input) "done" then
    Done
  else if Py.contains "=" user_input then
    let '(option_part, value) := Py.split_once "=" user_input in
    Assign (Py.strip option_part) (Py.strip value)
  else if String.eqb user_input "-GNinja" then NinjaShorthand
  else Malformed.

(** The body of the loop on one line typed at the prompt.  The
    messages it prints are console output; the one for a name that is
    not in the table shows the name as typed. *)
Definition loop_body (available : list BuildOption.t) (st : cust_state)
    (line : string) : step :=
  match parse_line line with
  | Done => Break
  | Assign option_part value =>
      if Py.isdigit option_part then
        match Py.int option_part with
        | None => Throw ValueError
        | Some idx => assign_by_index available idx value st
        end
      else assign_by_name available option_part value st
  | NinjaShorthand =>
      Next {| current_options := <["-GNinja" := "ON"]> (current_options st);
              use_ninja := true |} 0
  | Malformed => Next st 1
  end.

(** The [while True] loop.  [pending] counts the [input()] pauses that
    still have to swallow a line before the next prompt.  The result is
    the state at [break] and the tape that is left. *)
Fixpoint customize_loop (available : list BuildOption.t) (st : cust_state)
    (pending : nat) (t : tape) : outcome cust_state * tape :=
  match t with
  | [] => (Raise EOFError, [])
  | line :: t' =>
      match pending with
      | S k => customize_loop available st k t'
      | O =>
          match loop_body available st line with
          | Break => (Return st, t')
          | Next st' pauses => customize_loop available st' pauses t'
          | Throw e => (Raise e, t')
          end
      end
  end.

Definition current_val (cur : gmap string string) (opt : BuildOption.t) : string :=
  get cur (BuildOption.name opt) (BuildOption.current_value opt).

(** What one table entry contributes to [custom_options]. *)
Definition custom_option (cur : gmap string string) (opt : BuildOption.t)
  : list string :=
  let v := current_val cur opt in
  if negb (String.eqb v (BuildOption.current_value opt)) then
    if String.eqb (BuildOption.option_type opt) "generator" then
      if String.eqb v "ON" then [BuildOption.name opt] else []
    else [BuildOption.name opt +:+ "=" +:+ v]
  else [].

Definition custom_options (cur : gmap string string)
    (available : list BuildOption.t) : list string :=
  flat_map (custom_option cur) available.

(** [build_command] for a non-empty [custom_options]. *)
Definition build_command (custom : list string) : list string :=
  let has_client := existsb (Py.contains "-DCLIENT") custom in
  let has_server := existsb (Py.contains "-DSERVER") custom in
  (["cmake"; "../source/"] ++ custom)
    ++ (if negb has_client then ["-DCLIENT=OFF"] else [])
    ++ (if negb has_server then ["-DSERVER=ON"] else []).

(** The code after the loop. *)
Definition finish_customization (selected_mode : GameMode.t)
    (available : list BuildOption.t) (st : cust_state) (t : tape)
  : outcome (list string * bool) * tape :=
  match custom_options (current_options st) available with
  | [] =>
      match t with
      | [] => (Raise EOFError, [])
      | _ :: t' => (Return (GameMode.build_opts selected_mode, false), t')
      end
  | custom => (Return (build_command custom, use_ninja st), t)
  end.

(** [{opt.name: opt.current_value for opt in available_options}]. *)
Definition initial_options (available : list BuildOption.t) : gmap string string :=
  dict (map (fun opt => (BuildOption.name opt, BuildOption.current_value opt))
            available).

Definition initial_state (available : list BuildOption.t) : cust_state :=
  {| current_options := initial_options available; use_ninja := false |}.

(** [customize_build_options]: [customize] is the answer to "Do you want
    to customize build options?". *)
Definition customize_build_options (selected_mode : GameMode.t)
    (customize : bool) (t : tape) : outcome (list string * bool) * tape :=
  if negb customize then
    (Return (GameMode.build_opts selected_mode, false), t)
  else
    let available :=
      get AVAILABLE_BUILD_OPTIONS (GameMode.name selected_mode) [] in
    match available with
    | [] =>
        match t with
        | [] => (Raise EOFError, [])
        | _ :: t' => (Return (GameMode.build_opts selected_mode, false), t')
        end
    | _ =>
        match customize_loop available (initial_state available) 0 t with
        | (Return st, t') => finish_customization selected_mode available st t'
        | (Raise e, t') => (Raise e, t')
        end
    end.

(** ** The host the program runs on *)

(** How a launched process behaves: [subprocess.run] fails to start it
    ([FileNotFoundError] when the binary is missing, another [OSError]
    otherwise), or the user interrupts the wait, or the process exits
    after [seconds] with a return code and its captured streams. *)
Inductive process :=
| LaunchError (not_found : bool) (msg : string)
| Interrupted
| Exits (seconds : Z) (returncode : Z) (stdout stderr : string).

Record CompletedProcess := {
  returncode : Z;
  stdout : string;
  stderr : string
}.

(** [subprocess.run(..., timeout=...)]. *)
Definition subprocess_run (p : process) (timeout : option Z)
  : outcome CompletedProcess :=
  match p with
  | LaunchError true msg => Raise (FileNotFoundError msg)
  | LaunchError false msg => Raise (OSError msg)
  | Interrupted => Raise KeyboardInterrupt
  | Exits seconds rc out err =>
      let done := Return {| returncode := rc; stdout := out; stderr := err |} in
      match timeout with
      | Some limit => if (limit <? seconds)%Z then Raise TimeoutExpired else done
      | None => done
      end
  end.

(** One invocation of the command runner, as it appears in the log. *)
Record event := {
  ev_description : string;
  ev_command : list string;
  ev_cwd : option string;
  ev_result : outcome (bool * string * string)
}.

(** [shutil.disk_usage]. *)
Inductive usage :=
| Usage (total used free : Z)
| UsageError (msg : string).

(** Everything the program asks of its environment.  The behaviour of a
    process, and what the file system holds, may depend on the commands
    that ran before. *)
Record host := {
  exec : list event -> list string -> option string -> process;
  path_exists : list event -> string -> bool;
  mkdir : list event -> string -> option string;
  open_w : list event -> string -> option string;
  which : string -> bool;
  geteuid : Z;
  cpu_count : option nat;
  disk_usage : string -> usage
}.

(** The mutable world: working directory, the invocations of
    [run_command] so far, the files written, and what is still to be
    typed at the terminal
    ([stdin] for [input()] and [Prompt.ask], [confirms] for the answers
    given to [Confirm.ask]). *)
Record world := {
  cwd : string;
  log : list event;
  files : list (string * string);
  stdin : tape;
  confirms : list bool
}.

Definition set_cwd (d : string) (w : world) : world :=
  {| cwd := d; log := log w; files := files w;
     stdin := stdin w; confirms := confirms w |}.

Definition add_event (ev : event) (w : world) : world :=
  {| cwd := cwd w; log := log w ++ [ev]; files := files w;
     stdin := stdin w; confirms := confirms w |}.

Definition add_file (path text : string) (w : world) : world :=
  {| cwd := cwd w; log := log w; files := files w ++ [(path, text)];
     stdin := stdin w; confirms := confirms w |}.

Definition set_stdin (t : tape) (w : world) : world :=
  {| cwd := cwd w; log := log w; files := files w;
     stdin := t; confirms := confirms w |}.

Definition set_confirms (a : list bool) (w : world) : world :=
  {| cwd := cwd w; log := log w; files := files w;
     stdin := stdin w; confirms := a |}.

Definition M (A : Type) : Type := world -> outcome A * world.

Definition ret {A : Type} (a : A) : M A := fun w => (Return a, w).

Definition bind {A B : Type} (m : M A) (k : A -> M B) : M B :=
  fun w =>
    match m w with
    | (Return a, w') => k a w'
    | (Raise e, w') => (Raise e, w')
    end.

Notation "'do' x <- m ; k" := (bind m (fun x => k))
  (at level 10, x pattern, m at level 100, k at level 200).
Notation "'run' m ; k" := (bind m (fun _ => k))
  (at level 10, m at level 100, k at level 200).

(** [try: body finally: cleanup]. *)
Definition try_finally {A : Type} (body : M A) (cleanup : M unit) : M A :=
  fun w =>
    let '(r, w1) := body w in
    match cleanup w1 with
    | (Return _, w2) => (r, w2)
    | (Raise e, w2) => (Raise e, w2)
    end.

(** [try: body except Exception as e: handler]. *)
Definition try_except {A : Type} (body : M A) (handler : exn -> M A) : M A :=
  fun w =>
    match body w with
    | (Raise e, w') => if is_Exception e then handler e w' else (Raise e, w')
    | r => r
    end.

(** [input()]. *)
Definition input : M string :=
  fun w =>
    match stdin w with
    | [] => (Raise EOFError, w)
    | line :: rest => (Return line, set_stdin rest w)
    end.

(** [Confirm.ask]. *)
Definition Confirm_ask : M bool :=
  fun w =>
    match confirms w with
    | [] => (Raise EOFError, w)
    | b :: rest => (Return b, set_confirms rest w)
    end.

(** A wizard step written over the tape runs on the world's [stdin]. *)
Definition on_stdin {A : Type} (f : tape -> outcome A * tape) : M A :=
  fun w => let '(r, rest) := f (stdin w) in (r, set_stdin rest w).

(** [os.chdir] and [Path.cwd()]. *)
Definition os_chdir (d : string) : M unit := fun w => (Return tt, set_cwd d w).

Definition Path_cwd : M string := fun w => (Return (cwd w), w).

(** [a / b] on paths, and [p.absolute()]. *)
Definition Path_join (a b : string) : string := a +:+ "/" +:+ b.

Definition Path_absolute (p : string) : M string :=
  fun w => (Return (if String.prefix "/" p then p else Path_join (cwd w) p), w).

(** ** The builder *)

Record TeemakeBuilder := {
  server_name : string;
  selected_mode : GameMode.t;
  verbose : bool;
  is_root : bool;
  package_manager : PackageManager
}.

Definition nl : string := String Py.newline EmptyString.
Definition dquote : string := String (ascii_of_nat 34) EmptyString.

(** [config_values]: a dictionary whose iteration order is observed.
    Assigning to a key that is present keeps its position. *)
Definition odict := list (string * string).

Fixpoint odict_set (d : odict) (k v : string) : odict :=
  match d with
  | [] => [(k, v)]
  | (k', v') :: d' =>
      if String.eqb k' k then (k', v) :: d' else (k', v') :: odict_set d' k v
  end.

(** The text [_save_config_file] writes. *)
Definition config_line (kv : string * string) : string :=
  let '(key, value) := kv in
  if mem key ["sv_port"; "sv_max_clients"] then
    key +:+ " " +:+ value +:+ nl
  else
    key +:+ " " +:+ dquote +:+ value +:+ dquote +:+ nl.

Definition config_header (mode : GameMode.t) : list string :=
  ["// Teeworlds Server Configuration" +:+ nl;
   "// Generated by TEEMAKE v3.0" +:+ nl;
   "// Game Mode: " +:+ GameMode.name mode +:+ nl;
   nl].

Definition config_text (mode : GameMode.t) (config_values : odict) : string :=
  Py.concat (config_header mode ++ map config_line config_values).

(** One setting of the form: the [while True] around its prompt. *)
Fixpoint ask_setting (setting : ConfigSetting.t) (t : tape)
  : outcome string * tape :=
  match t with
  | [] => (Raise EOFError, [])
  | line :: t' =>
      let value := Prompt_ask (Some (ConfigSetting.default setting)) line in
      let port_ok :=
        if String.eqb (ConfigSetting.key setting) "sv_port" then
          match Py.int value with
          | Some port => negb ((port <? 1024)%Z || (65535 <? port)%Z)
          | None => false
          end
        else true in
      let clients_ok :=
        if String.eqb (ConfigSetting.key setting) "sv_max_clients" then
          match Py.int value with
          | Some clients => negb ((clients <? 1)%Z || (256 <? clients)%Z)
          | None => false
          end
        else true in
      if negb port_ok then ask_setting setting t'
      else if negb clients_ok then ask_setting setting t'
      else (Return value, t')
  end.

(** [for setting in settings]: fills [config_values]. *)
Fixpoint collect_settings (settings : list ConfigSetting.t)
    (config_values : odict) (t : tape) : outcome odict * tape :=
  match settings with
  | [] => (Return config_values, t)
  | setting :: rest =>
      match ask_setting setting t with
      | (Return value, t') =>
          collect_settings rest
            (odict_set config_values (ConfigSetting.key setting) value) t'
      | (Raise e, t') => (Raise e, t')
      end
  end.

(** The outer [while True] of [_basic_configuration]: one answer to "Are
    these values correct?" per round; a "no" clears the dictionary.  The
    summary table shown before the question is console output. *)
Fixpoint collect_confirmed (settings : list ConfigSetting.t)
    (config_values : odict) (answers : list bool) (t : tape)
  : outcome odict * (tape * list bool) :=
  match collect_settings settings config_values t with
  | (Raise e, t') => (Raise e, (t', answers))
  | (Return values, t') =>
      match answers with
      | [] => (Raise EOFError, (t', []))
      | true :: rest => (Return values, (t', rest))
      | false :: rest => collect_confirmed settings [] rest t'
      end
  end.

(** [get_server_name]. *)
Fixpoint get_server_name (t : tape) : outcome string * tape :=
  match t with
  | [] => (Raise EOFError, [])
  | line :: t' =>
      let name := Prompt_ask None line in
      if validate_server_name name then (Return name, t')
      else
        match t' with
        | [] => (Raise EOFError, [])
        | _ :: t'' => get_server_name t''
        end
  end.

(** [select_game_mode]. *)
Fixpoint select_game_mode (t : tape) : outcome GameMode.t * tape :=
  match t with
  | [] => (Raise EOFError, [])
  | line :: t' =>
      let choice := Prompt_ask None line in
      let again :=
        match t' with
        | [] => (Raise EOFError, [])
        | _ :: t'' => select_game_mode t''
        end in
      match Py.int choice with
      | Some idx =>
          if (1 <=? idx)%Z && (idx <=? Z.of_nat (length GAME_MODES))%Z then
            match GAME_MODES !! Z.to_nat (idx - 1) with
            | Some mode => (Return mode, t')
            | None => (Raise IndexError, t')
            end
          else again
      | None => again
      end
  end.

(** The [ninja_packages] table of [install_dependencies]. *)
Definition ninja_packages : gmap string string :=
  dict [("apt-get", "ninja-build"); ("dnf", "ninja-build");
        ("yum", "ninja-build"); ("pacman", "ninja"); ("zypper", "ninja")].

Section Host.

Variable h : host.

Definition _detect_package_manager : PackageManager :=
  if which h "apt-get" then APT
  else if which h "dnf" then DNF
  else if which h "yum" then YUM
  else if which h "pacman" then PACMAN
  else if which h "zypper" then ZYPPER
  else UNKNOWN.

(** [check_disk_space]: [available_mb] is the exact quotient; the
    division by [2^20] and the comparison with an integer lose nothing
    in binary floating point. *)
Definition check_disk_space (path : string) : bool :=
  match disk_usage h path with
  | Usage _ _ free =>
      let available_mb := (inject_Z free / inject_Z (1024 * 1024))%Q in
      if Qlt_le_dec available_mb (inject_Z MIN_DISK_SPACE_MB) then false
      else true
  | UsageError _ => true
  end.

(** What [run_command] returns for a given process behaviour.  What
    it prints on the way (the description, the last lines of the error
    output, the text of an exception, the captured streams in verbose
    mode) is console output. *)
Definition run_command_result (verbose : bool) (p : process)
  : outcome (bool * string * string) :=
  if verbose then
    match subprocess_run p None with
    | Return result =>
        Return ((returncode result =? 0)%Z, stdout result, stderr result)
    | Raise e => Raise e
    end
  else
    match subprocess_run p (Some 3600%Z) with
    | Return result =>
        if (returncode result =? 0)%Z
        then Return (true, stdout result, stderr result)
        else Return (false, stdout result, stderr result)
    | Raise TimeoutExpired =>
        Return (false, "", "Command timed out after 1 hour")
    | Raise e =>
        if is_Exception e then Return (false, "", str_exn e) else Raise e
    end.

(** [run_command]: launches the process and records the invocation. *)
Definition run_command (self : TeemakeBuilder) (description : string)
    (command : list string) (cwd_arg : option string)
  : M (bool * string * string) :=
  fun w =>
    let r := run_command_result (verbose self) (exec h (log w) command cwd_arg) in
    (r, add_event {| ev_description := description;
                     ev_command := command;
                     ev_cwd := cwd_arg;
                     ev_result := r |} w).

(** [ensure_sudo]: the two [sudo] probes are launched directly, not
    through the command runner. *)
Definition sudo_prompt : M bool :=
  fun w =>
    match subprocess_run (exec h (log w) ["sudo"; "-v"] None) (Some 30%Z) with
    | Return result => (Return (returncode result =? 0)%Z, w)
    | Raise TimeoutExpired => (Return false, w)
    | Raise KeyboardInterrupt => (Return false, w)
    | Raise e => (Raise e, w)
    end.

Definition ensure_sudo (self : TeemakeBuilder) : M bool :=
  if is_root self then ret true
  else
    fun w =>
      match subprocess_run (exec h (log w) ["sudo"; "-n"; "true"] None)
                           (Some 1%Z) with
      | Return result =>
          if (returncode result =? 0)%Z then (Return true, w)
          else sudo_prompt w
      | Raise TimeoutExpired => sudo_prompt w
      | Raise (FileNotFoundError _) => sudo_prompt w
      | Raise e => (Raise e, w)
      end.

Definition _get_install_command (self : TeemakeBuilder) (dependencies : string)
  : option (list string) :=
  match package_manager self with
  | APT =>
      let cmd_prefix :=
        if negb (is_root self) then ["sudo"; "apt-get"; "install"; "-y"]
        else ["apt-get"; "install"; "-y"] in
      Some (cmd_prefix ++ Py.split dependencies)
  | DNF =>
      let cmd_prefix :=
        if negb (is_root self) then ["sudo"; "dnf"; "install"; "-y"]
        else ["dnf"; "install"; "-y"] in
      Some (cmd_prefix ++ Py.split dependencies)
  | YUM =>
      let cmd_prefix :=
        if negb (is_root self) then ["sudo"; "yum"; "install"; "-y"]
        else ["yum"; "install"; "-y"] in
      Some (cmd_prefix ++ Py.split dependencies)
  | PACMAN =>
      let cmd_prefix :=
        if negb (is_root self) then ["sudo"; "pacman"; "-S"; "--noconfirm"]
        else ["pacman"; "-S"; "--noconfirm"] in
      Some (cmd_prefix ++ Py.split dependencies)
  | ZYPPER =>
      let cmd_prefix :=
        if negb (is_root self) then ["sudo"; "zypper"; "install"; "-y"]
        else ["zypper"; "install"; "-y"] in
      Some (cmd_prefix ++ Py.split dependencies)
  | UNKNOWN => None
  end.

(** The [all_deps] string [install_dependencies] builds. *)
Definition all_deps (self : TeemakeBuilder) (use_ninja : bool) : string :=
  let pm_value := PackageManagerEnum.value (package_manager self) in
  let base_deps := get BASE_DEPS pm_value (get BASE_DEPS "apt-get" "") in
  let mode_deps :=
    get (GameMode.dependencies (selected_mode self)) pm_value
        (get (GameMode.dependencies (selected_mode self)) "apt-get" "") in
  let all_deps := base_deps +:+ " " +:+ mode_deps in
  if use_ninja then
    let ninja_pkg := get ninja_packages pm_value "ninja-build" in
    all_deps +:+ " " +:+ ninja_pkg
  else all_deps.

Definition install_dependencies (self : TeemakeBuilder) (use_ninja : bool)
  : M bool :=
  match package_manager self with
  | UNKNOWN =>
      do proceed <- Confirm_ask;
      if negb proceed then ret false else ret true
  | _ =>
      match _get_install_command self (all_deps self use_ninja) with
      | None | Some [] => ret false
      | Some install_cmd =>
          do (success, _, _) <-
            run_command self
              ("Installing dependencies for "
                 +:+ GameMode.name (selected_mode self)
                 +:+ (if use_ninja then " with Ninja" else ""))
              install_cmd None;
          ret success
      end
  end.

Definition clone_repository (self : TeemakeBuilder) (source_path : string)
  : M bool :=
  do (success, _, _) <-
    run_command self
      ("Downloading " +:+ GameMode.name (selected_mode self))
      ["git"; "clone"; "--recursive"; GameMode.url (selected_mode self); "."]
      (Some source_path);
  if negb success then ret false
  else
    fun w =>
      if negb (path_exists h (log w) (Path_join source_path ".git"))
      then (Return false, w)
      else (Return true, w).

Definition configure_build (self : TeemakeBuilder) (build_path : string)
    (build_opts : list string) : M bool :=
  do (success, _, _) <-
    run_command self "Initializing build system" build_opts (Some build_path);
  ret success.

(** [os.cpu_count() or 2]. *)
Definition cpu_count_or_2 : nat :=
  match cpu_count h with
  | None | Some O => 2
  | Some n => n
  end.

Definition compile_server (self : TeemakeBuilder) (build_path : string)
    (use_ninja : bool) : M bool :=
  if use_ninja then
    do (success, _, _) <-
      run_command self "Compiling binary with Ninja" ["ninja"] (Some build_path);
    ret success
  else
    let cores := Nat.min cpu_count_or_2 16 in
    do (success, _, _) <-
      run_command self
        ("Compiling binary (using " +:+ Py.str_nat cores +:+ " cores)")
        ["make"; "-j" +:+ Py.str_nat cores] (Some build_path);
    ret success.

(** [Path.mkdir(parents=True, exist_ok=True)]. *)
Definition Path_mkdir (p : string) : M unit :=
  fun w =>
    match mkdir h (log w) p with
    | Some msg => (Raise (OSError msg), w)
    | None => (Return tt, w)
    end.

Definition _save_config_file (self : TeemakeBuilder) (build_path : string)
    (config_values : odict) (filename : string) : M bool :=
  let config_path := Path_join build_path filename in
  fun w =>
    match open_w h (log w) config_path with
    | Some _ => (Return false, w)
    | None =>
        (Return true,
         add_file config_path (config_text (selected_mode self) config_values) w)
    end.

Definition _basic_configuration (self : TeemakeBuilder) (build_path : string)
  : M bool :=
  let settings :=
    get BASIC_CONFIG_SETTINGS (GameMode.name (selected_mode self)) [] in
  match settings with
  | [] => ret false
  | _ =>
      do config_values <-
        (fun w =>
           let '(r, (t, a)) :=
             collect_confirmed settings [] (confirms w) (stdin w) in
           (r, set_confirms a (set_stdin t w)));
      _save_config_file self build_path config_values "basic_config.cfg"
  end.

(** [configure_server]: the menu loop reads one line per round. *)
Fixpoint configuration_choice (t : tape) : outcome Z * tape :=
  match t with
  | [] => (Raise EOFError, [])
  | line :: t' =>
      match Py.int (Prompt_ask (Some "1") line) with
      | Some idx =>
          if (idx =? 1)%Z || (idx =? 2)%Z || (idx =? 3)%Z then (Return idx, t')
          else configuration_choice t'
      | None => configuration_choice t'
      end
  end.

Definition configure_server (self : TeemakeBuilder) (build_path : string)
  : M bool :=
  do idx <- on_stdin configuration_choice;
  if (idx =? 3)%Z then ret true
  else _basic_configuration self build_path.

(** The stages of [build_server] inside [try ... finally]. *)
Definition pipeline (self : TeemakeBuilder) (source_path build_path : string)
    (custom_build_opts : list string) (use_ninja : bool)
  : M (option string) :=
  do cloned <- clone_repository self source_path;
  if negb cloned then ret None
  else
    do configured <- configure_build self build_path custom_build_opts;
    if negb configured then ret None
    else
      do compiled <- compile_server self build_path use_ninja;
      if negb compiled then ret None
      else ret (Some build_path).

(** [build_server] from "Step 5/5" on: dependencies, directories, and
    the pipeline under [try ... finally]. *)
Definition build_steps (self : TeemakeBuilder)
    (custom_build_opts : list string) (use_ninja : bool)
  : M (option string) :=
  do installed <- install_dependencies self use_ninja;
  if negb installed then
    run input; ret None
  else
    let server_path := server_name self in
    let source_path := Path_join server_path "source" in
    let build_path := Path_join server_path "server" in
    do dirs <-
      try_except
        (run Path_mkdir source_path;
         run Path_mkdir build_path;
         do source_path <- Path_absolute source_path;
         do build_path <- Path_absolute build_path;
         do start_dir <- Path_cwd;
         ret (Some (source_path, build_path, start_dir)))
        (fun _ => ret None);
    match dirs with
    | None => ret None
    | Some (source_path, build_path, start_dir) =>
        try_finally
          (pipeline self source_path build_path custom_build_opts use_ninja)
          (os_chdir start_dir)
    end.

(** [build_server].  [initial_dir] is the default argument of
    [check_disk_space], [Path.cwd()] taken once when the class is defined:
    the directory the program was started in.  The builder's fields are
    set as the wizard goes: name, mode and verbosity from the answers,
    [is_root] and [package_manager] from the host. *)
Definition build_server (initial_dir : string) : M (option string) :=
  do server_name <- on_stdin get_server_name;
  do selected_mode <- on_stdin select_game_mode;
  do customize <- Confirm_ask;
  do (custom_build_opts, use_ninja) <-
    on_stdin (customize_build_options selected_mode customize);
  do verbose <- Confirm_ask;
  let self :=
    {| server_name := server_name;
       selected_mode := selected_mode;
       verbose := verbose;
       is_root := (geteuid h =? 0)%Z;
       package_manager := _detect_package_manager |} in
  if negb (check_disk_space initial_dir) then
    run input; ret None
  else
    do sudo <- ensure_sudo self;
    if negb sudo then
      run input; ret None
    else
      run input;
      build_steps self custom_build_opts use_ninja.

End Host.

(** ** The entry point *)

(** [build_server] once more, this time keeping the builder it has
    filled in: [run] goes on to call [configure_server] on the same
    object.  [build_server_session] below shows that the two agree. *)
Definition build_session (h : host) (initial_dir : string)
  : M (option (TeemakeBuilder * string)) :=
  do server_name <- on_stdin get_server_name;
  do selected_mode <- on_stdin select_game_mode;
  do customize <- Confirm_ask;
  do (custom_build_opts, use_ninja) <-
    on_stdin (customize_build_options selected_mode customize);
  do verbose <- Confirm_ask;
  let self :=
    {| server_name := server_name;
       selected_mode := selected_mode;
       verbose := verbose;
       is_root := (geteuid h =? 0)%Z;
       package_manager := _detect_package_manager h |} in
  if negb (check_disk_space h initial_dir) then
    run input; ret None
  else
    do sudo <- ensure_sudo h self;
    if negb sudo then
      run input; ret None
    else
      run input;
      do build_path <- build_steps h self custom_build_opts use_ninja;
      ret (pair self <$> build_path).

(** [run]: the exit code.  A [Path] is always truthy, so [if build_path]
    asks whether [build_server] returned one.  The value of
    [configure_server] is not looked at.  [main] hands the code to
    [sys.exit].  The header shown before the [try] and the messages the
    two handlers print before they return are console output: the code
    is the one of a run in which they are printed without error. *)
Definition run_body (h : host) (initial_dir : string) : M Z :=
  do session <- build_session h initial_dir;
  match session with
  | Some (self, build_path) =>
      run input;
      run configure_server h self build_path;
      ret 0%Z
  | None => ret 1%Z
  end.

Definition TeemakeBuilder_run (h : host) (initial_dir : string) : M Z :=
  fun w =>
    match run_body h initial_dir w with
    | (Raise KeyboardInterrupt, w') => (Return 130%Z, w')
    | (Raise _, w') => (Return 1%Z, w')
    | (Return code, w') => (Return code, w')
    end.

(** ** The specification's reading of the customization rules *)

Definition falsy_tokens : list string := ["OFF"; "NO"; "FALSE"; "0"].

(** A boolean option named [name] given [value]: stored as ON or OFF for
    the eight tokens in any case, rejected with the state kept (after one
    pause) otherwise. *)
Definition spec_boolean_step (st : cust_state) (name value : string) : step :=
  if mem (Py.upper value) truthy_tokens then Next (set_option st name "ON") 0
  else if mem (Py.upper value) falsy_tokens then Next (set_option st name "OFF") 0
  else Next st 1.

(** An option counts as changed when its current value differs from the
    declared default. *)
Definition changed (cur : gmap string string) (opt : BuildOption.t) : bool :=
  negb (String.eqb (current_val cur opt) (BuildOption.current_value opt)).

(** The override a changed option contributes: the bare flag for a
    generator that is ON, [<flag>=<value>] for the other kinds. *)
Definition spec_override (cur : gmap string string) (opt : BuildOption.t)
  : list string :=
  if String.eqb (BuildOption.option_type opt) "generator" then
    if String.eqb (current_val cur opt) "ON" then [BuildOption.name opt] else []
  else [BuildOption.name opt +:+ "=" +:+ current_val cur opt].

Definition spec_overrides (cur : gmap string string)
    (available : list BuildOption.t) : list string :=
  flat_map (fun opt => if changed cur opt then spec_override cur opt else [])
           available.

(** Whether the option named [flag] has been changed. *)
Definition overridden (cur : gmap string string)
    (available : list BuildOption.t) (flag : string) : bool :=
  existsb (fun opt => String.eqb (BuildOption.name opt) flag && changed cur opt)
          available.

(** [-DCLIENT=OFF] and [-DSERVER=ON], each left out when its option has
    been overridden. *)
Definition spec_forced (cur : gmap string string)
    (available : list BuildOption.t) : list string :=
  (if overridden cur available "-DCLIENT" then [] else ["-DCLIENT=OFF"])
  ++ (if overridden cur available "-DSERVER" then [] else ["-DSERVER=ON"]).

(** ** Tables of switches *)

(** What the catalog's option tables have in common: every option is a
    boolean or a generator with default ON or OFF, generators default to
    OFF, and an override mentions [-DCLIENT] or [-DSERVER] only when it
    is the override of that very option. *)
Definition on_off (v : string) : bool := String.eqb v "ON" || String.eqb v "OFF".

Definition switch_option (opt : BuildOption.t) : bool :=
  let name := BuildOption.name opt in
  (String.eqb (BuildOption.option_type opt) "boolean"
   || String.eqb (BuildOption.option_type opt) "generator")
  && on_off (BuildOption.current_value opt)
  && (if String.eqb (BuildOption.option_type opt) "generator"
      then String.eqb (BuildOption.current_value opt) "OFF" else true)
  && forallb
       (fun flag =>
          forallb
            (fun rendered =>
               Bool.eqb (Py.contains flag rendered) (String.eqb name flag))
            [name +:+ "=ON"; name +:+ "=OFF"; name])
       ["-DCLIENT"; "-DSERVER"].

Definition switch_table (available : list BuildOption.t) : bool :=
  forallb switch_option available.

(** Every value held in [current_options] is ON or OFF. *)
Definition switch_values (st : cust_state) : Prop :=
  forall k v, current_options st !! k = Some v -> v = "ON" \/ v = "OFF".

(** ** The installation command in the specification's words *)

(** The merged package list: base packages, the mode's packages for the
    manager (its APT packages when it names none for the manager), and
    the manager's ninja package when Ninja was selected. *)
Definition spec_packages (self : TeemakeBuilder) (use_ninja : bool)
  : list string :=
  let pm_value := PackageManagerEnum.value (package_manager self) in
  Py.split (get BASE_DEPS pm_value (get BASE_DEPS "apt-get" ""))
  ++ Py.split (get (GameMode.dependencies (selected_mode self)) pm_value
                 (get (GameMode.dependencies (selected_mode self)) "apt-get" ""))
  ++ (if use_ninja then [get ninja_packages pm_value "ninja-build"] else []).

Definition elevation (self : TeemakeBuilder) : list string :=
  if is_root self then [] else ["sudo"].

(** [<pm> install -y <packages>], behind [sudo] when not root. *)
Definition spec_install_command (self : TeemakeBuilder) (use_ninja : bool)
  : list string :=
  elevation self
  ++ [PackageManagerEnum.value (package_manager self); "install"; "-y"]
  ++ spec_packages self use_ninja.

(** The words each manager takes before the package list. *)
Definition install_words (pm : PackageManager) : list string :=
  match pm with
  | PACMAN => ["pacman"; "-S"; "--noconfirm"]
  | _ => [PackageManagerEnum.value pm; "install"; "-y"]
  end.

Definition install_command (self : TeemakeBuilder) (use_ninja : bool)
  : list string :=
  elevation self ++ install_words (package_manager self)
  ++ spec_packages self use_ninja.

(** ** The configuration file in the specification's words *)

(** The file is described line by line, with the characters written
    out: ["034"] is the double quote and ["010"] the line feed. *)

(** One [key value] line: the value bare for the two numeric keys,
    between two double quotes for every other key. *)
Definition spec_config_line (key value : string) : string :=
  if String.eqb key "sv_port" || String.eqb key "sv_max_clients"
  then String.append key (String.append " " value)
  else String.append key
         (String.append " "
            (String "034" (String.append value (String "034" EmptyString)))).

(** The lines of the file: the three comment lines, a blank line, then
    one line per setting in the order the settings are declared. *)
Definition spec_config_lines (mode : GameMode.t)
    (settings : list ConfigSetting.t) (values : list string) : list string :=
  ["// Teeworlds Server Configuration";
   "// Generated by TEEMAKE v3.0";
   String.append "// Game Mode: " (GameMode.name mode);
   ""]
  ++ zip_with (fun setting value =>
                 spec_config_line (ConfigSetting.key setting) value)
              settings values.

(** The text of a file that holds the given lines, each ended by a line
    feed. *)
Fixpoint spec_file_of_lines (lines : list string) : string :=
  match lines with
  | [] => EmptyString
  | line :: rest =>
      String.append line (String "010" (spec_file_of_lines rest))
  end.

Definition spec_config_text (mode : GameMode.t)
    (settings : list ConfigSetting.t) (values : list string) : string :=
  spec_file_of_lines (spec_config_lines mode settings values).

(** ** Stages in the log *)

(** The command runner's descriptions tell the stages apart. *)
Definition is_configure (ev : event) : bool :=
  String.eqb (ev_description ev) "Initializing build system".

Definition is_compile (ev : event) : bool :=
  String.prefix "Compiling binary" (ev_description ev).

Definition succeeded (ev : event) : bool :=
  match ev_result ev with
  | Return (true, _, _) => true
  | _ => false
  end.

(** No compile stage was invoked if a configure stage failed. *)
Definition short_circuit (new : list event) : Prop :=
  forall ev, In ev new -> is_configure ev = true -> succeeded ev = false ->
  forall ev', In ev' new -> is_compile ev' = false.

Definition other_stage (ev : event) : Prop :=
  is_configure ev = false /\ is_compile ev = false.

(** The working directory is where it was; the log has grown by [new]
    events that satisfy the short-circuit rule. *)
Definition restored (w w' : world) : Prop :=
  cwd w' = cwd w
  /\ exists new, log w' = log w ++ new /\ short_circuit new.

(** Neither the working directory nor the log has moved. *)
Definition same_place (w w' : world) : Prop :=
  cwd w' = cwd w /\ log w' = log w.

Definition apt_builder : TeemakeBuilder :=
  {| server_name := "myserver";
     selected_mode := Teeworlds;
     verbose := false;
     is_root := false;
     package_manager := APT |}.

Definition config_world : world :=
  {| cwd := "/home/tee";
     log := [];
     files := [];
     stdin := ["X"; "80"; "8303"; ""; "ctf"];
     confirms := [true] |}.

(** A text either is empty or ends in a character that is no space. *)
Definition tidy_end (s : string) : Prop :=
  s = EmptyString
  \/ exists front c, s = front +:+ String c EmptyString /\ Py.is_space c = false.

(** No [run_command] after a failed one: an event that did not succeed
    is the last of the list. *)
Definition chain (l : list event) : Prop :=
  forall l1 ev l2, l = l1 ++ ev :: l2 -> succeeded ev = false -> l2 = [].

Definition all_succeeded (l : list event) : Prop :=
  forall ev, In ev l -> succeeded ev = true.

(** The run has stopped before a build path: [run_command] was not
    called. *)
Definition nothing_run {A : Type} (w : world)
    (r : outcome (option A) * world) : Prop :=
  log r.2 = log w /\ forall p, r.1 <> Return (Some p).

(** A table that offers the Ninja generator: some option is named
    [-GNinja], and every option of that name is a generator. *)
Definition ninja_table (available : list BuildOption.t) : bool :=
  existsb (fun opt => String.eqb (BuildOption.name opt) "-GNinja") available
  && forallb (fun opt =>
                if String.eqb (BuildOption.name opt) "-GNinja"
                then String.eqb (BuildOption.option_type opt) "generator"
                else true)
             available.

(** The Ninja flag is set exactly when [-GNinja] is held at ON. *)
Definition ninja_agrees (st : cust_state) : Prop :=
  use_ninja st = true <-> current_options st !! "-GNinja" = Some "ON".

(** How many words of a command line mention [flag]. *)
Definition mentions (flag : string) (words : list string) : nat :=
  length (List.filter (Py.contains flag) words).

(** What a stage of the log runs, given the configure command and the
    Ninja flag the wizard settled on. *)
Definition stage_commands (opts : list string) (ninja : bool) (ev : event)
  : Prop :=
  (is_configure ev = true -> ev_command ev = opts)
  /\ (is_compile ev = true -> (ev_command ev = ["ninja"] <-> ninja = true)).

(** Configure and compile stages agree on the generator. *)
Definition generator_coherent (new : list event) : Prop :=
  forall ev_c ev_m, In ev_c new -> In ev_m new ->
    is_configure ev_c = true -> is_compile ev_m = true ->
    (ev_command ev_m = ["ninja"] <-> In "-GNinja" (ev_command ev_c)).

(** A computation whose new log entries all satisfy [P]. *)
Definition adds {A : Type} (P : event -> Prop) (m : M A) : Prop :=
  forall w, exists l, log (snd (m w)) = log w ++ l /\ Forall P l.

(** Text the console prints as it stands: without a square bracket it
    holds no markup tag. *)
Definition plain_text (s : string) : bool := negb (Py.has_char "[" s).

(** ** Concrete inputs used by the examples below *)

(** A host on which every command succeeds after five seconds, except
    [cmake], which fails. *)
Definition cmake_fails : host :=
  {| exec := fun _ command _ =>
       match command with
       | "cmake" :: _ => Exits 3 1 "" "CMake Error"
       | _ => Exits 5 0 "ok" ""
       end;
     path_exists := fun _ _ => true;
     mkdir := fun _ _ => None;
     open_w := fun _ _ => None;
     which := fun c => String.eqb c "pacman";
     geteuid := 1000;
     cpu_count := Some 64;
     disk_usage := fun _ => Usage 0 0 (5000 * 1024 * 1024) |}.

Definition myserver_world : world :=
  {| cwd := "/home/tee";
     log := [];
     files := [];
     stdin := ["myserver"; "1"; ""; "2"; ""; "8303"; "16"; ""];
     confirms := [false; false; true] |}.

Definition pacman_builder : TeemakeBuilder :=
  {| server_name := "myserver";
     selected_mode := Teeworlds;
     verbose := false;
     is_root := false;
     package_manager := PACMAN |}.

Definition teeworlds_options : list BuildOption.t :=
  get AVAILABLE_BUILD_OPTIONS "Teeworlds" [].

Definition client_option : BuildOption.t :=
  BuildOption.mk "-DCLIENT" "Build client" "OFF" "boolean".

Definition tools_option : BuildOption.t :=
  BuildOption.mk "-DTOOLS" "Build tools" "OFF" "boolean".

Definition server_option : BuildOption.t :=
  BuildOption.mk "-DSERVER" "Build server" "ON" "boolean".

Definition ninja_tools_state : cust_state :=
  {| current_options :=
       <["-DSERVER" := "OFF"]>
         (<["-GNinja" := "ON"]>
            (<["-DTOOLS" := "ON"]> (initial_options teeworlds_options)));
     use_ninja := true |}.

(** A host on which every command succeeds. *)
Definition all_succeed : host :=
  {| exec := fun _ _ _ => Exits 5 0 "ok" "";
     path_exists := fun _ _ => true;
     mkdir := fun _ _ => None;
     open_w := fun _ _ => None;
     which := fun c => String.eqb c "apt-get";
     geteuid := 0;
     cpu_count := Some 64;
     disk_usage := fun _ => Usage 0 0 (5000 * 1024 * 1024) |}.

(** A host with 1999 MB free. *)
Definition small_disk : host :=
  {| exec := fun _ _ _ => Exits 5 0 "ok" "";
     path_exists := fun _ _ => true;
     mkdir := fun _ _ => None;
     open_w := fun _ _ => None;
     which := fun c => String.eqb c "apt-get";
     geteuid := 0;
     cpu_count := None;
     disk_usage := fun _ => Usage 0 0 (1999 * 1024 * 1024) |}.

(** Everything a complete run reads: name, mode, three times Enter, the
    menu default, and the four settings. *)
Definition full_run_world : world :=
  {| cwd := "/home/tee";
     log := [];
     files := [];
     stdin := ["myserver"; "1"; ""; ""; ""; "My Server"; ""; ""; ""];
     confirms := [false; false; true] |}.

(** A run that picks Teeworlds and asks for Ninja in the customization
    loop. *)
Definition ninja_world : world :=
  {| cwd := "/home/tee";
     log := [];
     files := [];
     stdin := ["myserver"; "1"; "-GNinja"; "done"; ""];
     confirms := [true; false] |}.

(** * Properties *)

(** ** The command runner *)

Lemma run_command_quiet_returns (p : process) :
  p <> Interrupted ->
  exists r, run_command_result false p = Return r.
Proof.
  intros Hp. destruct p as [[|] msg| |seconds rc out err]; simpl.
  - eauto.
  - eauto.
  - congruence.
  - destruct (3600 <? seconds)%Z; simpl; [eauto|].
    destruct (rc =? 0)%Z; eauto.
Qed.

(** C1: a launch error is turned into the failure tuple in quiet mode,
    with the exception message as stderr, but in verbose mode the same
    launch error leaves [run_command] as a raised exception. *)
Theorem run_command_launch_error (not_found : bool) (msg : string) :
  run_command_result false (LaunchError not_found msg) = Return (false, "", msg)
  /\ run_command_result true (LaunchError not_found msg)
     = Raise (if not_found then FileNotFoundError msg else OSError msg).
Proof. destruct not_found; split; reflexivity. Qed.

(** C2: a process that outlives the 3600-second limit yields the
    "timed out" failure tuple in quiet mode; in verbose mode no limit is
    set and the result of the process is returned whenever it ends. *)
Theorem run_command_timeout (seconds rc : Z) (out err : string) :
  (3600 < seconds)%Z ->
  run_command_result false (Exits seconds rc out err)
    = Return (false, "", "Command timed out after 1 hour")
  /\ run_command_result true (Exits seconds rc out err)
     = Return ((rc =? 0)%Z, out, err).
Proof.
  intros Hlate. split; [|reflexivity].
  unfold run_command_result, subprocess_run.
  destruct (Z.ltb_spec 3600 seconds) as [_|Hle]; [reflexivity|lia].
Qed.

Lemma run_command_timeout_witness :
  (3600 < 4000)%Z
  /\ run_command_result false (Exits 4000 0 "done" "")
     = Return (false, "", "Command timed out after 1 hour")
  /\ run_command_result true (Exits 4000 0 "done" "") = Return (true, "done", "").
Proof.
  split; [lia|]. apply (run_command_timeout 4000 0 "done" ""). lia.
Defined.

(** ** Disk space *)

Lemma available_mb_lt (free : Z) :
  (inject_Z free / inject_Z (1024 * 1024) < inject_Z MIN_DISK_SPACE_MB)%Q
  <-> (free < 2000 * (1024 * 1024))%Z.
Proof.
  unfold Qlt, Qdiv, Qmult, Qinv, inject_Z, MIN_DISK_SPACE_MB; simpl. lia.
Qed.

(** C10: when the free-space query fails, [check_disk_space] answers
    true; it answers false exactly when the query succeeds and reports
    fewer than 2000 MB free. *)
Theorem check_disk_space_spec (h : host) (path : string) :
  (forall msg, disk_usage h path = UsageError msg ->
               check_disk_space h path = true)
  /\ (check_disk_space h path = false <->
      exists total used free,
        disk_usage h path = Usage total used free
        /\ (free < 2000 * (1024 * 1024))%Z).
Proof.
  unfold check_disk_space. split.
  - intros msg ->. reflexivity.
  - destruct (disk_usage h path) as [total used free|msg].
    + destruct (Qlt_le_dec _ _) as [Hlt|Hle]; split.
      * intros _. exists total, used, free. split; [reflexivity|].
        now apply available_mb_lt.
      * reflexivity.
      * discriminate.
      * intros (t & u & f & Heq & Hf). inversion Heq; subst.
        apply available_mb_lt in Hf. exfalso.
        apply (Qlt_not_le _ _ Hf Hle).
    + split; [discriminate|]. intros (t & u & f & Heq & _). discriminate.
Qed.

Lemma check_disk_space_spec_witness :
  check_disk_space
    {| exec := exec cmake_fails; path_exists := path_exists cmake_fails;
       mkdir := mkdir cmake_fails; open_w := open_w cmake_fails;
       which := which cmake_fails; geteuid := 0; cpu_count := None;
       disk_usage := fun _ => UsageError "No such file or directory" |}
    "/home/tee" = true.
Proof.
  eapply (proj1 (check_disk_space_spec _ "/home/tee")). reflexivity.
Defined.

(** ** Server names *)

Lemma contains_needs_first (c : ascii) (rest s : string) :
  Py.has_char c s = false -> Py.contains (String c rest) s = false.
Proof.
  induction s as [|d s IH]; simpl; [reflexivity|].
  intros H. apply orb_false_elim in H as [Hcd Hs].
  rewrite (IH Hs), orb_false_r.
  destruct (ascii_dec c d) as [->|_]; [|reflexivity].
  now rewrite Ascii.eqb_refl in Hcd.
Qed.

Lemma has_char_app (c : ascii) (a b : string) :
  Py.has_char c (a +:+ b) = Py.has_char c a || Py.has_char c b.
Proof.
  induction a as [|d a IH]; simpl; [reflexivity|].
  now rewrite IH, orb_assoc.
Qed.

Lemma name_chars_lack (c : ascii) (s : string) :
  name_char c = false -> all_name_chars s = true -> Py.has_char c s = false.
Proof.
  intros Hc. induction s as [|d s IH]; simpl; [reflexivity|].
  intros H. apply andb_prop in H as [Hd Hs]. rewrite (IH Hs), orb_false_r.
  destruct (Ascii.eqb_spec c d) as [->|_]; [congruence|reflexivity].
Qed.

(** No path character occurs in a run of class characters, with or
    without a line feed after it. *)
Lemma name_chars_no_path (s tail : string) :
  all_name_chars s = true -> tail = EmptyString \/ tail = nl ->
  Py.contains ".." (s +:+ tail) = false
  /\ Py.contains "/" (s +:+ tail) = false
  /\ Py.contains "\" (s +:+ tail) = false.
Proof.
  intros Hs Htail.
  assert (Hlack : forall c, name_char c = false ->
                    Py.has_char c nl = false ->
                    Py.has_char c (s +:+ tail) = false).
  { intros c Hc Hnl. rewrite has_char_app, (name_chars_lack c s Hc Hs).
    destruct Htail as [-> | ->]; [reflexivity|exact Hnl]. }
  repeat split; apply contains_needs_first; apply Hlack; reflexivity.
Qed.

Lemma class_star_dollar_spec (s : string) :
  class_star_dollar s = true <->
  all_name_chars s = true
  \/ exists body, s = body +:+ nl /\ all_name_chars body = true.
Proof.
  induction s as [|c s IH]; simpl.
  - split; [now left|reflexivity].
  - rewrite orb_true_iff, andb_true_iff, IH. split.
    + intros [Hend|[Hc [Hs|(body & -> & Hbody)]]].
      * destruct s; [|discriminate]. apply Ascii.eqb_eq in Hend as ->.
        right. exists EmptyString. split; reflexivity.
      * left. now rewrite Hc, Hs.
      * right. exists (String c body). split; [reflexivity|].
        simpl. now rewrite Hc, Hbody.
    + intros [H|(body & Heq & Hbody)].
      * apply andb_prop in H as [Hc Hs]. right. split; [exact Hc|now left].
      * destruct body as [|d body]; simpl in Heq; inversion Heq; subst.
        -- left. reflexivity.
        -- simpl in Hbody. apply andb_prop in Hbody as [Hd Hbody].
           right. split; [exact Hd|]. right. now exists body.
Qed.

Lemma string_app_empty (s : string) : s +:+ EmptyString = s.
Proof.
  induction s as [|c s IH]; [reflexivity|].
  change (String c (s +:+ EmptyString) = String c s). now f_equal.
Qed.

Lemma length_app_nl (body : string) :
  String.length (body +:+ nl) = S (String.length body).
Proof. induction body as [|c body IH]; simpl; [reflexivity|now rewrite IH]. Qed.

(** What [validate_server_name] accepts: the names the specification
    allows, and those names followed by one line feed. *)
Lemma validate_server_name_accepts (name : string) :
  validate_server_name name = true <->
  spec_valid_name name = true
  \/ exists body,
       name = body +:+ nl /\ spec_valid_name body = true
       /\ String.length body <= 63.
Proof.
  unfold validate_server_name, spec_valid_name. split.
  - destruct (Py.contains ".." name || Py.contains "/" name
               || Py.contains "\" name) eqn:Hpath; [discriminate|].
    destruct (re_match_name name) eqn:Hre; [simpl|discriminate].
    destruct ((String.length name <? 1) || (64 <? String.length name))
      eqn:Hlen; [discriminate|]. intros _.
    apply orb_false_elim in Hlen as [H1 H64].
    apply Nat.ltb_ge in H1, H64.
    apply orb_false_elim in Hpath as [Hpath Hback].
    apply orb_false_elim in Hpath as [Hdots Hslash].
    destruct name as [|c s]; [discriminate|]. simpl in Hre.
    apply andb_prop in Hre as [Hc Hs].
    apply class_star_dollar_spec in Hs as [Hs|(body & -> & Hbody)].
    + left. rewrite Hdots, Hslash, Hback. simpl all_name_chars.
      rewrite Hc, Hs. simpl.
      rewrite !andb_true_r. apply Nat.leb_le. simpl in H64. lia.
    + right. exists (String c body). split; [reflexivity|].
      change (String c body +:+ nl) with (String c (body +:+ nl)) in H64.
      simpl in H64. rewrite length_app_nl in H64.
      assert (Hall : all_name_chars (String c body) = true)
        by (simpl; now rewrite Hc, Hbody).
      destruct (name_chars_no_path (String c body) EmptyString Hall (or_introl eq_refl))
        as (Hd & Hsl & Hb).
      rewrite string_app_empty in Hd, Hsl, Hb.
      rewrite Hd, Hsl, Hb, Hall. simpl. split; [|lia].
      rewrite !andb_true_r. apply Nat.leb_le. lia.
  - intros [H|(body & -> & H & Hlen)].
    + repeat (apply andb_prop in H as [H ?]).
      rewrite negb_true_iff in *.
      repeat match goal with Hx : Py.contains _ _ = false |- _ =>
               rewrite Hx; clear Hx end.
      simpl. apply Nat.leb_le in H. 
      match goal with Hx : (_ <=? 64) = true |- _ => apply Nat.leb_le in Hx end.
      destruct name as [|c s]; [simpl in H; lia|].
      match goal with Hx : all_name_chars _ = true |- _ =>
        simpl in Hx; apply andb_prop in Hx as [Hc Hs] end.
      simpl re_match_name. rewrite Hc.
      rewrite (proj2 (class_star_dollar_spec s) (or_introl Hs)). simpl.
      simpl in *.
      destruct (Nat.ltb_spec 64 (S (String.length s))); [lia|reflexivity].
    + repeat (apply andb_prop in H as [H ?]).
      match goal with Hx : all_name_chars _ = true |- _ => rename Hx into Hall end.
      destruct (name_chars_no_path body nl Hall (or_intror eq_refl))
        as (Hd & Hsl & Hb).
      rewrite Hd, Hsl, Hb. simpl.
      apply Nat.leb_le in H.
      destruct body as [|c body]; [simpl in H; lia|].
      simpl in Hall. apply andb_prop in Hall as [Hc Hbody].
      change (String c body +:+ nl) with (String c (body +:+ nl)).
      simpl re_match_name. rewrite Hc.
      rewrite (proj2 (class_star_dollar_spec (body +:+ nl))
                 (or_intror (ex_intro _ body (conj eq_refl Hbody)))).
      simpl. rewrite length_app_nl. simpl in Hlen.
      destruct (Nat.ltb_spec 64 (S (S (String.length body)))); [lia|reflexivity].
Qed.

(** C5: the name made of the letter [a] followed by a line feed passes
    [validate_server_name], although the line feed is outside
    [[A-Za-z0-9_-]] and the rule of the specification rejects it. *)
Theorem validate_server_name_trailing_newline :
  validate_server_name (String "a" (String Py.newline EmptyString)) = true
  /\ spec_valid_name (String "a" (String Py.newline EmptyString)) = false.
Proof. split; reflexivity. Qed.

(** ** Boolean options in the customization loop *)

Lemma mem_boolean_tokens (v : string) :
  mem v boolean_tokens = mem v truthy_tokens || mem v falsy_tokens.
Proof.
  unfold mem, boolean_tokens, truthy_tokens, falsy_tokens; simpl.
  repeat match goal with
         | |- context [String.eqb v ?t] => destruct (String.eqb v t)
         end; reflexivity.
Qed.

Lemma boolean_branch (st : cust_state) (name value : string) :
  (if negb (mem (Py.upper value) boolean_tokens) then Next st 1
   else Next (set_option st name (normalized value)) 0)
  = spec_boolean_step st name value.
Proof.
  unfold spec_boolean_step, normalized. rewrite mem_boolean_tokens.
  destruct (mem (Py.upper value) truthy_tokens),
           (mem (Py.upper value) falsy_tokens); reflexivity.
Qed.

Lemma assign_by_index_boolean (available : list BuildOption.t) (idx : Z)
    (opt : BuildOption.t) (value : string) (st : cust_state) :
  (1 <= idx)%Z ->
  available !! Z.to_nat (idx - 1) = Some opt ->
  BuildOption.option_type opt = "boolean" ->
  assign_by_index available idx value st
  = spec_boolean_step st (BuildOption.name opt) value.
Proof.
  intros Hidx Hopt Hty. unfold assign_by_index.
  pose proof (lookup_lt_Some _ _ _ Hopt) as Hlt.
  replace ((1 <=? idx)%Z && (idx <=? Z.of_nat (length available))%Z) with true
    by (symmetry; apply andb_true_intro; split;
        [apply Z.leb_le | apply Z.leb_le]; lia).
  rewrite Hopt, Hty. simpl. apply boolean_branch.
Qed.

Lemma scan_by_name_absent (opts : list BuildOption.t) (part value : string)
    (st : cust_state) (found : bool) (pauses : nat) :
  (forall o, In o opts -> BuildOption.name o <> part) ->
  scan_by_name opts part value st found pauses = (st, found, pauses).
Proof.
  induction opts as [|o opts IH]; intros Hno; simpl; [reflexivity|].
  destruct (String.eqb_spec (BuildOption.name o) part) as [Heq|_].
  - exfalso. apply (Hno o); [now left | exact Heq].
  - apply IH. intros o' Ho'. apply Hno. now right.
Qed.

Lemma scan_by_name_boolean (opts : list BuildOption.t) (opt : BuildOption.t)
    (value : string) (st : cust_state) (found : bool) (pauses : nat) :
  List.NoDup (map BuildOption.name opts) ->
  In opt opts ->
  BuildOption.option_type opt = "boolean" ->
  scan_by_name opts (BuildOption.name opt) value st found pauses
  = if negb (mem (Py.upper value) boolean_tokens) then (st, true, S pauses)
    else (set_option st (BuildOption.name opt) (normalized value), true, pauses).
Proof.
  intros Hnd Hin Hty. revert found pauses.
  induction opts as [|o opts IH]; intros found pauses; [destruct Hin|].
  simpl in Hnd. inversion Hnd as [|? ? Hfresh Hnd']; subst.
  destruct Hin as [->|Hin].
  - simpl. rewrite String.eqb_refl, Hty. simpl.
    destruct (negb (mem (Py.upper value) boolean_tokens)); [|reflexivity].
    apply scan_by_name_absent. intros o' Ho' Heq. apply Hfresh.
    rewrite <- Heq. apply in_map. exact Ho'.
  - simpl. destruct (String.eqb_spec (BuildOption.name o) (BuildOption.name opt))
      as [Heq|_].
    + exfalso. apply Hfresh. rewrite Heq. apply in_map. exact Hin.
    + apply IH; assumption.
Qed.

Lemma assign_by_name_boolean (available : list BuildOption.t)
    (opt : BuildOption.t) (value : string) (st : cust_state) :
  List.NoDup (map BuildOption.name available) ->
  In opt available ->
  BuildOption.option_type opt = "boolean" ->
  assign_by_name available (BuildOption.name opt) value st
  = spec_boolean_step st (BuildOption.name opt) value.
Proof.
  intros Hnd Hin Hty. unfold assign_by_name.
  rewrite (scan_by_name_boolean _ _ _ _ _ _ Hnd Hin Hty).
  rewrite <- boolean_branch.
  destruct (negb (mem (Py.upper value) boolean_tokens)); reflexivity.
Qed.

Lemma loop_body_boolean (available : list BuildOption.t)
    (st : cust_state) (line option_part value : string) (opt : BuildOption.t) :
  parse_line line = Assign option_part value ->
  BuildOption.option_type opt = "boolean" ->
  (Py.isdigit option_part = true /\
   (exists idx, Py.int option_part = Some idx /\ (1 <= idx)%Z /\
                available !! Z.to_nat (idx - 1) = Some opt))
  \/ (Py.isdigit option_part = false /\
      List.NoDup (map BuildOption.name available) /\
      In opt available /\ BuildOption.name opt = option_part) ->
  loop_body available st line
  = spec_boolean_step st (BuildOption.name opt) value.
Proof.
  intros Hparse Hty Hsel. unfold loop_body. rewrite Hparse.
  destruct Hsel as [(Hdig & idx & Hint & Hidx & Hopt)
                   |(Hdig & Hnd & Hin & Hname)]; rewrite Hdig.
  - rewrite Hint. now apply assign_by_index_boolean.
  - rewrite <- Hname. now apply assign_by_name_boolean.
Qed.

Lemma mem_In (x : string) (l : list string) : mem x l = true <-> In x l.
Proof.
  unfold mem. rewrite existsb_exists. split.
  - intros (y & Hin & Heq). apply String.eqb_eq in Heq. now subst.
  - intros Hin. exists x. split; [exact Hin|apply String.eqb_refl].
Qed.

Lemma mem_not_In (x : string) (l : list string) : ~ In x l -> mem x l = false.
Proof.
  intros Hno. destruct (mem x l) eqn:Hm; [|reflexivity].
  now apply mem_In in Hm.
Qed.

(** C6: in the customization loop, a line that assigns [value] to a
    boolean option, selected by its 1-based number or by its flag name,
    stores ON under the option's flag for a value in ON, YES, TRUE, 1
    (any case), stores OFF for OFF, NO, FALSE, 0 (any case), and for any
    other value keeps the state as it was and asks again after one
    pause.  Nothing else of the state moves. *)
Theorem boolean_option_assignment (available : list BuildOption.t)
    (st : cust_state) (line option_part value : string) (opt : BuildOption.t) :
  parse_line line = Assign option_part value ->
  BuildOption.option_type opt = "boolean" ->
  (Py.isdigit option_part = true /\
   (exists idx, Py.int option_part = Some idx /\ (1 <= idx)%Z /\
                available !! Z.to_nat (idx - 1) = Some opt))
  \/ (Py.isdigit option_part = false /\
      List.NoDup (map BuildOption.name available) /\
      In opt available /\ BuildOption.name opt = option_part) ->
  (In (Py.upper value) ["ON"; "YES"; "TRUE"; "1"] ->
   loop_body available st line
   = Next {| current_options :=
               <[BuildOption.name opt := "ON"]> (current_options st);
             use_ninja := use_ninja st |} 0)
  /\ (In (Py.upper value) ["OFF"; "NO"; "FALSE"; "0"] ->
      loop_body available st line
      = Next {| current_options :=
                  <[BuildOption.name opt := "OFF"]> (current_options st);
                use_ninja := use_ninja st |} 0)
  /\ (~ In (Py.upper value)
          ["ON"; "OFF"; "YES"; "NO"; "TRUE"; "FALSE"; "1"; "0"] ->
      loop_body available st line = Next st 1).
Proof.
  intros Hparse Hty Hsel.
  rewrite (loop_body_boolean available st line option_part value opt
             Hparse Hty Hsel).
  unfold spec_boolean_step, set_option, truthy_tokens, falsy_tokens.
  repeat split.
  - intros Hin. apply mem_In in Hin. now rewrite Hin.
  - intros Hin.
    assert (Hno : mem (Py.upper value) ["ON"; "YES"; "TRUE"; "1"] = false).
    { simpl in Hin. destruct Hin as [<-|[<-|[<-|[<-|[]]]]]; reflexivity. }
    apply mem_In in Hin. now rewrite Hno, Hin.
  - intros Hno.
    rewrite !mem_not_In; [reflexivity| |];
      intros Hin; apply Hno; simpl in Hin; simpl; tauto.
Qed.

Ltac nodup_strings :=
  repeat (apply List.NoDup_cons;
          [simpl; intros H;
           repeat (destruct H as [H|H]; [discriminate H|]); exact H|]);
  apply List.NoDup_nil.

Lemma boolean_option_assignment_witness :
  loop_body teeworlds_options (initial_state teeworlds_options) "1=yes"
  = Next {| current_options :=
              <["-DCLIENT" := "ON"]> (initial_options teeworlds_options);
            use_ninja := false |} 0
  /\ loop_body teeworlds_options (initial_state teeworlds_options)
       "-DSERVER=No"
     = Next {| current_options :=
                 <["-DSERVER" := "OFF"]> (initial_options teeworlds_options);
               use_ninja := false |} 0
  /\ loop_body teeworlds_options (initial_state teeworlds_options)
       " -DTOOLS = maybe "
     = Next (initial_state teeworlds_options) 1.
Proof.
  split; [|split].
  - apply (proj1 (boolean_option_assignment teeworlds_options
                    (initial_state teeworlds_options) "1=yes" "1" "yes"
                    client_option ltac:(reflexivity) ltac:(reflexivity)
                    ltac:(left; split; [reflexivity|]; exists 1%Z;
                          split; [reflexivity|]; split; [lia|reflexivity]))).
    vm_compute. tauto.
  - apply (proj1 (proj2 (boolean_option_assignment teeworlds_options
                    (initial_state teeworlds_options) "-DSERVER=No"
                    "-DSERVER" "No" server_option
                    ltac:(reflexivity) ltac:(reflexivity)
                    ltac:(right; split; [reflexivity|]; split;
                          [vm_compute; nodup_strings|];
                          split; [vm_compute; tauto|reflexivity])))).
    vm_compute. tauto.
  - apply (proj2 (proj2 (boolean_option_assignment teeworlds_options
                    (initial_state teeworlds_options) " -DTOOLS = maybe "
                    "-DTOOLS" "maybe" tools_option
                    ltac:(reflexivity) ltac:(reflexivity)
                    ltac:(right; split; [reflexivity|]; split;
                          [vm_compute; nodup_strings|];
                          split; [vm_compute; tauto|reflexivity])))).
    vm_compute. intros H.
    repeat (destruct H as [H|H]; [discriminate H|]). exact H.
Defined.

(** ** Leaving the customization without a change *)

Lemma custom_option_unchanged (cur : gmap string string) (opt : BuildOption.t) :
  current_val cur opt = BuildOption.current_value opt ->
  custom_option cur opt = [].
Proof.
  intros Heq. unfold custom_option. rewrite Heq, String.eqb_refl. reflexivity.
Qed.

Lemma custom_options_unchanged (cur : gmap string string)
    (available : list BuildOption.t) :
  (forall opt, In opt available ->
               current_val cur opt = BuildOption.current_value opt) ->
  custom_options cur available = [].
Proof.
  unfold custom_options.
  induction available as [|opt available IH]; intros Hsame; simpl; [reflexivity|].
  rewrite custom_option_unchanged by (apply Hsame; now left).
  apply IH. intros o Ho. apply Hsame. now right.
Qed.

(** C7: declining the customization returns the mode's default argument
    list untouched; so does entering the loop and leaving it with every
    option at its declared default, once the closing "Press Enter" line
    has been read. *)
Theorem customize_build_options_default (selected_mode : GameMode.t) :
  (forall t,
     customize_build_options selected_mode false t
     = (Return (GameMode.build_opts selected_mode, false), t))
  /\ (forall t st enter rest,
        let available :=
          get AVAILABLE_BUILD_OPTIONS (GameMode.name selected_mode) [] in
        available <> [] ->
        customize_loop available (initial_state available) 0 t
        = (Return st, enter :: rest) ->
        (forall opt, In opt available ->
           current_val (current_options st) opt = BuildOption.current_value opt) ->
        customize_build_options selected_mode true t
        = (Return (GameMode.build_opts selected_mode, false), rest)).
Proof.
  split; [reflexivity|].
  intros t st enter rest available Hne Hloop Hsame.
  unfold customize_build_options. simpl negb. cbv iota.
  fold available. destruct available as [|o os] eqn:Hav; [congruence|].
  rewrite Hloop. unfold finish_customization.
  rewrite custom_options_unchanged by exact Hsame. reflexivity.
Qed.

Lemma customize_build_options_default_witness :
  customize_build_options DDNet false ["1=ON"]
  = (Return (GameMode.build_opts DDNet, false), ["1=ON"])
  /\ customize_build_options DDNet true ["1=ON"; "-DCLIENT=off"; "done"; ""; "x"]
     = (Return (GameMode.build_opts DDNet, false), ["x"]).
Proof.
  pose proof (customize_build_options_default DDNet) as [Hno Hloop].
  split; [apply Hno|].
  eapply (Hloop ["1=ON"; "-DCLIENT=off"; "done"; ""; "x"]).
  - vm_compute. discriminate.
  - vm_compute. reflexivity.
  - vm_compute. intros opt Hopt.
    repeat (destruct Hopt as [<-|Hopt]; [reflexivity|]). destruct Hopt.
Defined.

(** ** The customized command line *)

Lemma foldl_insert_lookup {V : Type} (items : list (string * V))
    (m : gmap string V) (k : string) (v : V) :
  foldl (fun m kv => <[kv.1 := kv.2]> m) m items !! k = Some v ->
  m !! k = Some v \/ In (k, v) items.
Proof.
  revert m. induction items as [|[k' v'] items IH]; intros m Hk; simpl in *.
  - now left.
  - destruct (IH _ Hk) as [Hm|Hin]; [|right; now right].
    destruct (decide (k' = k)) as [->|Hne].
    + rewrite lookup_insert_eq in Hm. inversion Hm; subst. right. now left.
    + rewrite lookup_insert_ne in Hm by exact Hne. now left.
Qed.

Lemma dict_lookup {V : Type} (items : list (string * V)) (k : string) (v : V) :
  dict items !! k = Some v -> In (k, v) items.
Proof.
  intros Hk. destruct (foldl_insert_lookup items ∅ k v Hk) as [Hm|Hin];
    [|exact Hin].
  rewrite lookup_empty in Hm. discriminate.
Qed.

Lemma on_off_cases (v : string) : on_off v = true <-> v = "ON" \/ v = "OFF".
Proof.
  unfold on_off. rewrite orb_true_iff, !String.eqb_eq. reflexivity.
Qed.

Lemma switch_table_In (available : list BuildOption.t) (opt : BuildOption.t) :
  switch_table available = true -> In opt available -> switch_option opt = true.
Proof.
  unfold switch_table. rewrite forallb_forall. intros H Hin. now apply H.
Qed.

(** What [switch_option] says about one table entry. *)
Lemma switch_option_kind (opt : BuildOption.t) :
  switch_option opt = true ->
  (BuildOption.option_type opt = "boolean"
   \/ (BuildOption.option_type opt = "generator"
       /\ BuildOption.current_value opt = "OFF"))
  /\ (BuildOption.current_value opt = "ON" \/ BuildOption.current_value opt = "OFF").
Proof.
  unfold switch_option. intros H.
  apply andb_prop in H as [H _]. apply andb_prop in H as [H Hgen].
  apply andb_prop in H as [Hkind Hdef].
  split; [|now apply on_off_cases].
  destruct (String.eqb_spec (BuildOption.option_type opt) "generator") as [Hg|Hg].
  - right. split; [exact Hg|]. now apply String.eqb_eq.
  - left. apply orb_prop in Hkind as [Hb|Hb]; [|discriminate Hb].
    now apply String.eqb_eq.
Qed.

Lemma switch_option_mentions (opt : BuildOption.t) (flag : string) :
  switch_option opt = true ->
  flag = "-DCLIENT" \/ flag = "-DSERVER" ->
  Py.contains flag (BuildOption.name opt +:+ "=" +:+ "ON")
    = String.eqb (BuildOption.name opt) flag
  /\ Py.contains flag (BuildOption.name opt +:+ "=" +:+ "OFF")
     = String.eqb (BuildOption.name opt) flag
  /\ Py.contains flag (BuildOption.name opt)
     = String.eqb (BuildOption.name opt) flag.
Proof.
  unfold switch_option. intros H Hflag.
  apply andb_prop in H as [_ H]. cbn [forallb] in H.
  rewrite !andb_true_r in H.
  apply andb_prop in H as [Hc Hs].
  destruct Hflag as [-> | ->]; [clear Hs; rename Hc into H|clear Hc; rename Hs into H];
    apply andb_prop in H as [H1 H]; apply andb_prop in H as [H2 H3];
    apply Bool.eqb_prop in H1, H2, H3; auto.
Qed.

Lemma initial_state_switch_values (available : list BuildOption.t) :
  switch_table available = true -> switch_values (initial_state available).
Proof.
  intros Htab k v Hk. simpl in Hk. unfold initial_options in Hk.
  apply dict_lookup in Hk. apply in_map_iff in Hk as (opt & Heq & Hin).
  inversion Heq; subst.
  now apply (switch_option_kind opt (switch_table_In _ _ Htab Hin)).
Qed.

Lemma set_option_switch_values (st : cust_state) (k v : string) :
  switch_values st -> v = "ON" \/ v = "OFF" -> switch_values (set_option st k v).
Proof.
  intros Hst Hv k' v' Hk. simpl in Hk.
  destruct (decide (k = k')) as [->|Hne].
  - rewrite lookup_insert_eq in Hk. inversion Hk; subst. exact Hv.
  - rewrite lookup_insert_ne in Hk by exact Hne. now apply (Hst k').
Qed.

Lemma set_generator_switch_values (opt : BuildOption.t) (value : string)
    (st : cust_state) :
  switch_values st -> switch_values (set_generator opt value st).
Proof.
  intros Hst k' v' Hk. unfold set_generator in Hk.
  destruct (mem (Py.upper value) truthy_tokens); simpl in Hk;
    (destruct (decide (BuildOption.name opt = k')) as [Heq|Hne];
     [rewrite Heq, lookup_insert_eq in Hk; inversion Hk; subst; auto
     |rewrite lookup_insert_ne in Hk by exact Hne; now apply (Hst k')]).
Qed.

Lemma normalized_on_off (value : string) :
  normalized value = "ON" \/ normalized value = "OFF".
Proof. unfold normalized. destruct (mem _ _); auto. Qed.

Lemma assign_by_index_switch_values (available : list BuildOption.t) (idx : Z)
    (value : string) (st st' : cust_state) (pauses : nat) :
  switch_table available = true ->
  switch_values st ->
  assign_by_index available idx value st = Next st' pauses ->
  switch_values st'.
Proof.
  intros Htab Hst. unfold assign_by_index.
  destruct (_ && _); [|intros H; inversion H; subst; exact Hst].
  destruct (available !! Z.to_nat (idx - 1)) as [opt|] eqn:Hopt; [|discriminate].
  assert (Hin : In opt available).
  { apply list_elem_of_In. eapply list_elem_of_lookup_2. exact Hopt. }
  destruct (switch_option_kind opt (switch_table_In _ _ Htab Hin))
    as [[Hty|[Hty _]] _]; rewrite Hty; simpl.
  - destruct (negb (mem (Py.upper value) boolean_tokens)); intros H;
      inversion H; subst; [exact Hst|].
    apply set_option_switch_values; [exact Hst|apply normalized_on_off].
  - intros H; inversion H; subst. now apply set_generator_switch_values.
Qed.

Lemma scan_by_name_switch_values (available opts : list BuildOption.t)
    (option_part value : string) (st st' : cust_state) (found found' : bool)
    (pauses pauses' : nat) :
  switch_table available = true ->
  (forall o, In o opts -> In o available) ->
  switch_values st ->
  scan_by_name opts option_part value st found pauses = (st', found', pauses') ->
  switch_values st'.
Proof.
  intros Htab. revert found pauses.
  induction opts as [|o opts IH]; intros found pauses Hsub Hst; simpl.
  - intros H; inversion H; subst; exact Hst.
  - destruct (String.eqb (BuildOption.name o) option_part).
    + destruct (switch_option_kind o (switch_table_In _ _ Htab (Hsub o (or_introl eq_refl))))
        as [[Hty|[Hty _]] _]; rewrite Hty; simpl.
      * destruct (negb (mem (Py.upper value) boolean_tokens)).
        -- apply IH; [|exact Hst]. intros o' Ho'. apply Hsub. now right.
        -- intros H; inversion H; subst.
           apply set_option_switch_values; [exact Hst|apply normalized_on_off].
      * intros H; inversion H; subst. now apply set_generator_switch_values.
    + apply IH; [|exact Hst]. intros o' Ho'. apply Hsub. now right.
Qed.

Lemma loop_body_switch_values (available : list BuildOption.t)
    (st st' : cust_state) (line : string) (pauses : nat) :
  switch_table available = true ->
  switch_values st ->
  loop_body available st line = Next st' pauses ->
  switch_values st'.
Proof.
  intros Htab Hst. unfold loop_body.
  destruct (parse_line line) as [|option_part value| |]; try discriminate.
  - destruct (Py.isdigit option_part).
    + destruct (Py.int option_part) as [idx|]; [|discriminate].
      now apply assign_by_index_switch_values.
    + unfold assign_by_name.
      destruct (scan_by_name _ _ _ _ _ _) as [[st1 found] n] eqn:Hscan.
      assert (Hst1 : switch_values st1).
      { eapply scan_by_name_switch_values; eauto. }
      destruct (negb found); intros H; inversion H; subst; exact Hst1.
  - intros H; inversion H; subst. intros k v Hk. simpl in Hk.
    destruct (decide ("-GNinja" = k)) as [<-|Hne].
    + rewrite lookup_insert_eq in Hk. inversion Hk; auto.
    + rewrite lookup_insert_ne in Hk by exact Hne. now apply (Hst k).
  - intros H; inversion H; subst; exact Hst.
Qed.

Lemma customize_loop_switch_values (available : list BuildOption.t)
    (t rest : tape) (st st' : cust_state) (pending : nat) :
  switch_table available = true ->
  switch_values st ->
  customize_loop available st pending t = (Return st', rest) ->
  switch_values st'.
Proof.
  intros Htab. revert st pending.
  induction t as [|line t IH]; intros st pending Hst; simpl; [discriminate|].
  destruct pending as [|k]; [|now apply IH].
  destruct (loop_body available st line) as [|st1 n|e] eqn:Hbody.
  - intros H; inversion H; subst; exact Hst.
  - apply IH. eapply loop_body_switch_values; eauto.
  - discriminate.
Qed.

Lemma custom_options_spec (cur : gmap string string)
    (available : list BuildOption.t) :
  custom_options cur available = spec_overrides cur available.
Proof.
  unfold custom_options, spec_overrides.
  induction available as [|opt available IH]; simpl; [reflexivity|].
  now rewrite IH.
Qed.

Lemma current_val_on_off (st : cust_state) (opt : BuildOption.t) :
  switch_option opt = true ->
  switch_values st ->
  current_val (current_options st) opt = "ON"
  \/ current_val (current_options st) opt = "OFF".
Proof.
  intros Hopt Hst. unfold current_val, get.
  destruct (current_options st !! BuildOption.name opt) as [v|] eqn:Hk; simpl.
  - now apply (Hst _ _ Hk).
  - now apply switch_option_kind.
Qed.

(** A changed option of a table of switches contributes exactly one
    override. *)
Lemma changed_override (st : cust_state) (opt : BuildOption.t) :
  switch_option opt = true ->
  switch_values st ->
  changed (current_options st) opt = true ->
  exists o, spec_override (current_options st) opt = [o].
Proof.
  intros Hopt Hst Hch. unfold spec_override.
  destruct (switch_option_kind opt Hopt) as [[Hty|[Hty Hdef]] _]; rewrite Hty; simpl.
  - eauto.
  - unfold changed in Hch. rewrite Hdef in Hch.
    destruct (current_val_on_off st opt Hopt Hst) as [Hv|Hv]; rewrite Hv in *.
    + simpl. eauto.
    + discriminate Hch.
Qed.

Lemma changed_overrides_nonempty (st : cust_state)
    (available : list BuildOption.t) (opt : BuildOption.t) :
  switch_table available = true ->
  switch_values st ->
  In opt available ->
  changed (current_options st) opt = true ->
  spec_overrides (current_options st) available <> [].
Proof.
  intros Htab Hst Hin Hch Hnil. unfold spec_overrides in Hnil.
  apply in_split in Hin as (l1 & l2 & ->).
  rewrite flat_map_app in Hnil. simpl in Hnil.
  apply app_eq_nil in Hnil as [_ Hnil]. rewrite Hch in Hnil.
  destruct (changed_override st opt) as [o Ho]; try assumption.
  - eapply switch_table_In; [exact Htab|]. apply in_or_app. right. now left.
  - rewrite Ho in Hnil. discriminate.
Qed.

Lemma override_mentions (st : cust_state) (opt : BuildOption.t) (flag : string) :
  switch_option opt = true ->
  switch_values st ->
  flag = "-DCLIENT" \/ flag = "-DSERVER" ->
  existsb (Py.contains flag)
    (if changed (current_options st) opt
     then spec_override (current_options st) opt else [])
  = String.eqb (BuildOption.name opt) flag && changed (current_options st) opt.
Proof.
  intros Hopt Hst Hflag.
  destruct (changed (current_options st) opt) eqn:Hch;
    [|now rewrite andb_false_r].
  rewrite andb_true_r.
  destruct (switch_option_mentions opt flag Hopt Hflag) as (Hon & Hoff & Hbare).
  unfold spec_override.
  destruct (switch_option_kind opt Hopt) as [[Hty|[Hty Hdef]] _]; rewrite Hty; simpl.
  - destruct (current_val_on_off st opt Hopt Hst) as [Hv|Hv]; rewrite Hv;
      rewrite orb_false_r; assumption.
  - unfold changed in Hch. rewrite Hdef in Hch.
    destruct (current_val_on_off st opt Hopt Hst) as [Hv|Hv]; rewrite Hv in *.
    + simpl. now rewrite orb_false_r.
    + discriminate Hch.
Qed.

Lemma overrides_mention (st : cust_state) (available : list BuildOption.t)
    (flag : string) :
  switch_table available = true ->
  switch_values st ->
  flag = "-DCLIENT" \/ flag = "-DSERVER" ->
  existsb (Py.contains flag) (spec_overrides (current_options st) available)
  = overridden (current_options st) available flag.
Proof.
  intros Htab Hst Hflag. unfold spec_overrides, overridden.
  induction available as [|opt available IH]; simpl; [reflexivity|].
  simpl in Htab. apply andb_prop in Htab as [Hopt Htab].
  rewrite existsb_app, override_mentions by assumption.
  now rewrite IH.
Qed.

Lemma catalog_tables (mode : GameMode.t) :
  In mode GAME_MODES ->
  switch_table (get AVAILABLE_BUILD_OPTIONS (GameMode.name mode) []) = true
  /\ get AVAILABLE_BUILD_OPTIONS (GameMode.name mode) [] <> [].
Proof.
  intros Hmode. simpl in Hmode.
  destruct Hmode as [<-|[<-|[<-|[]]]]; split;
    solve [vm_compute; reflexivity | vm_compute; discriminate].
Qed.

(** C3, amended: when the loop is left with at least one option changed,
    the command line is [cmake ../source/], then one override per
    changed option in table order, then [-DCLIENT=OFF] unless the client
    option was overridden and [-DSERVER=ON] unless the server option was
    overridden; the second component is the Ninja flag. *)
Theorem customize_build_options_changed (mode : GameMode.t) (t rest : tape)
    (st : cust_state) (opt : BuildOption.t) :
  let available := get AVAILABLE_BUILD_OPTIONS (GameMode.name mode) [] in
  In mode GAME_MODES ->
  customize_loop available (initial_state available) 0 t = (Return st, rest) ->
  In opt available ->
  current_val (current_options st) opt <> BuildOption.current_value opt ->
  customize_build_options mode true t
  = (Return (["cmake"; "../source/"]
               ++ spec_overrides (current_options st) available
               ++ spec_forced (current_options st) available,
             use_ninja st),
     rest).
Proof.
  intros available Hmode Hloop Hin Hne.
  destruct (catalog_tables mode Hmode) as [Htab Hnonempty]. fold available in Htab, Hnonempty.
  assert (Hst : switch_values st).
  { eapply customize_loop_switch_values; [exact Htab| |exact Hloop].
    now apply initial_state_switch_values. }
  assert (Hch : changed (current_options st) opt = true).
  { unfold changed. apply negb_true_iff. now apply String.eqb_neq. }
  pose proof (changed_overrides_nonempty st available opt Htab Hst Hin Hch) as Hov.
  unfold customize_build_options. simpl negb. cbv iota. fold available.
  destruct available as [|o os] eqn:Hav; [congruence|]. rewrite <- Hav in *.
  rewrite Hloop. unfold finish_customization. rewrite custom_options_spec.
  destruct (spec_overrides (current_options st) available) as [|x xs] eqn:Hxs;
    [congruence|].
  rewrite <- Hxs. unfold build_command, spec_forced.
  rewrite !overrides_mention by auto.
  rewrite <- app_assoc.
  destruct (overridden _ _ "-DCLIENT"), (overridden _ _ "-DSERVER"); reflexivity.
Qed.

Lemma customize_build_options_changed_witness :
  customize_build_options Teeworlds true ["4=on"; "-GNinja"; "2=off"; "done"; "x"]
  = (Return (["cmake"; "../source/"; "-DSERVER=OFF"; "-DTOOLS=ON"; "-GNinja";
              "-DCLIENT=OFF"], true),
     ["x"]).
Proof.
  apply (customize_build_options_changed Teeworlds
           ["4=on"; "-GNinja"; "2=off"; "done"; "x"] ["x"]
           ninja_tools_state tools_option).
  - left. reflexivity.
  - vm_compute. reflexivity.
  - vm_compute. tauto.
  - vm_compute. discriminate.
Defined.

(** C3 as the specification words it fails: with one option changed the
    returned list does not begin with the mode's default flag list. *)
Lemma customized_command_drops_defaults :
  fst (customize_build_options Teeworlds true ["-DTOOLS=ON"; "done"])
  = Return (["cmake"; "../source/"; "-DTOOLS=ON"; "-DCLIENT=OFF"; "-DSERVER=ON"],
            false)
  /\ ~ (exists appended,
          ["cmake"; "../source/"; "-DTOOLS=ON"; "-DCLIENT=OFF"; "-DSERVER=ON"]
          = GameMode.build_opts Teeworlds ++ appended).
Proof.
  split; [vm_compute; reflexivity|].
  intros [appended H]. simpl in H. discriminate H.
Qed.

(** ** The installation command *)

Lemma split_from_app (cur : option string) (a b : string) :
  Py.split_from cur (a +:+ " " +:+ b)
  = Py.split_from cur a ++ Py.split_from None b.
Proof.
  revert cur. induction a as [|c a IH]; intros cur; simpl.
  - reflexivity.
  - destruct (Py.is_space c).
    + rewrite IH. now rewrite app_assoc.
    + apply IH.
Qed.

Lemma split_app (a b : string) :
  Py.split (a +:+ " " +:+ b) = Py.split a ++ Py.split b.
Proof. apply split_from_app. Qed.

Lemma ninja_package_word (pm : PackageManager) :
  Py.split (get ninja_packages (PackageManagerEnum.value pm) "ninja-build")
  = [get ninja_packages (PackageManagerEnum.value pm) "ninja-build"].
Proof. destruct pm; vm_compute; reflexivity. Qed.

Lemma all_deps_split (self : TeemakeBuilder) (use_ninja : bool) :
  Py.split (all_deps self use_ninja) = spec_packages self use_ninja.
Proof.
  unfold all_deps, spec_packages. destruct use_ninja.
  - rewrite split_app, split_app, ninja_package_word. now rewrite <- app_assoc.
  - rewrite split_app. now rewrite app_nil_r.
Qed.

Lemma _get_install_command_shape (self : TeemakeBuilder) (dependencies : string) :
  package_manager self <> UNKNOWN ->
  _get_install_command self dependencies
  = Some (elevation self ++ install_words (package_manager self)
          ++ Py.split dependencies).
Proof.
  intros Hpm. unfold _get_install_command, elevation.
  destruct (package_manager self), (is_root self); try reflexivity; congruence.
Qed.

(** C4, amended: for each supported manager [install_dependencies] runs
    one command: [sudo] exactly when not root, then [<pm> install -y] for
    APT, DNF, YUM and ZYPPER and [pacman -S --noconfirm] for PACMAN, then
    the merged package list. *)
Theorem install_dependencies_command (h : host) (self : TeemakeBuilder)
    (use_ninja : bool) (w : world) :
  package_manager self <> UNKNOWN ->
  map ev_command (log (snd (install_dependencies h self use_ninja w)))
  = map ev_command (log w) ++ [install_command self use_ninja]
  /\ (package_manager self <> PACMAN ->
      install_command self use_ninja = spec_install_command self use_ninja).
Proof.
  intros Hpm. split.
  - unfold install_dependencies.
    rewrite (_get_install_command_shape self _ Hpm), all_deps_split.
    fold (install_command self use_ninja).
    assert (Hcons : exists x xs, install_command self use_ninja = x :: xs).
    { unfold install_command, elevation, install_words.
      destruct (is_root self), (package_manager self); simpl; eauto. }
    destruct Hcons as (x & xs & Hcmd). rewrite Hcmd.
    destruct (package_manager self); try congruence;
      unfold bind, run_command;
      destruct (run_command_result _ _) as [[[ok out] err]|e]; simpl;
      now rewrite map_app.
  - intros Hnp. unfold install_command, spec_install_command, install_words.
    destruct (package_manager self); congruence.
Qed.

Lemma install_dependencies_command_witness :
  map ev_command
    (log (snd (install_dependencies cmake_fails
                 {| server_name := "myserver"; selected_mode := zCatch;
                    verbose := true; is_root := true;
                    package_manager := ZYPPER |} true myserver_world)))
  = [["zypper"; "install"; "-y"; "gcc"; "gcc-c++"; "make"; "cmake"; "git";
      "python3"; "freetype2-devel"; "libSDL2-devel"; "libcurl-devel"; "ninja"]].
Proof.
  apply (proj1 (install_dependencies_command cmake_fails
                  {| server_name := "myserver"; selected_mode := zCatch;
                     verbose := true; is_root := true;
                     package_manager := ZYPPER |} true myserver_world
                  ltac:(discriminate))).
Defined.

(** C4 as the specification words it fails for PACMAN, which is not
    given [install -y]. *)
Lemma pacman_install_command :
  map ev_command
    (log (snd (install_dependencies cmake_fails pacman_builder false
                 myserver_world)))
  = [["sudo"; "pacman"; "-S"; "--noconfirm"; "base-devel"; "cmake"; "git";
      "python"; "freetype2"; "sdl2"; "libpng"; "wavpack"]]
  /\ map ev_command
       (log (snd (install_dependencies cmake_fails pacman_builder false
                    myserver_world)))
     <> [spec_install_command pacman_builder false].
Proof.
  split; [vm_compute; reflexivity|]. vm_compute. discriminate.
Qed.

(** ** The configuration file *)

Lemma append_assoc (a b c : string) :
  String.append (String.append a b) c = String.append a (String.append b c).
Proof.
  induction a as [|x a IH]; [reflexivity|].
  change (String x (String.append (String.append a b) c)
          = String x (String.append a (String.append b c))).
  now f_equal.
Qed.

Lemma append_cons (c : ascii) (a b : string) :
  String.append (String c a) b = String c (String.append a b).
Proof. reflexivity. Qed.

Lemma append_nil_l (b : string) : String.append EmptyString b = b.
Proof. reflexivity. Qed.

Ltac flatten_append :=
  repeat (rewrite append_assoc || rewrite append_cons || rewrite append_nil_l).

Lemma config_line_spec (key value : string) :
  config_line (key, value)
  = String.append (spec_config_line key value) (String "010" EmptyString).
Proof.
  unfold config_line, spec_config_line, mem, nl, dquote. simpl existsb.
  rewrite orb_false_r.
  destruct (String.eqb key "sv_port" || String.eqb key "sv_max_clients");
    flatten_append; reflexivity.
Qed.

Lemma odict_set_fresh (d : odict) (k v : string) :
  ~ In k (map fst d) -> odict_set d k v = d ++ [(k, v)].
Proof.
  induction d as [|[k' v'] d IH]; intros Hfresh; simpl; [reflexivity|].
  destruct (String.eqb_spec k' k) as [->|_].
  - exfalso. apply Hfresh. now left.
  - rewrite IH; [reflexivity|]. intros Hin. apply Hfresh. now right.
Qed.

(** With distinct keys, each setting appends one entry, in order. *)
Lemma collect_settings_order (settings : list ConfigSetting.t) (d d' : odict)
    (t t' : tape) :
  List.NoDup (map fst d ++ map ConfigSetting.key settings) ->
  collect_settings settings d t = (Return d', t') ->
  exists values,
    length values = length settings
    /\ d' = d ++ combine (map ConfigSetting.key settings) values.
Proof.
  revert d t. induction settings as [|s settings IH]; intros d t Hnd; simpl.
  - intros H; inversion H; subst. exists []. split; [reflexivity|].
    now rewrite app_nil_r.
  - destruct (ask_setting s t) as [[value|e] t1]; [|discriminate].
    intros Hrest.
    assert (Hfresh : ~ In (ConfigSetting.key s) (map fst d)).
    { intros Hin. apply List.NoDup_remove_2 in Hnd. apply Hnd.
      apply in_or_app. now left. }
    rewrite (odict_set_fresh d _ value Hfresh) in Hrest.
    apply IH in Hrest.
    + destruct Hrest as (values & Hlen & ->). exists (value :: values).
      split; [simpl; now rewrite Hlen|]. now rewrite <- app_assoc.
    + rewrite map_app. simpl. rewrite <- app_assoc. simpl.
      apply List.NoDup_remove_1 in Hnd as Hnd'.
      apply List.NoDup_remove_2 in Hnd as Hk.
      clear - Hnd' Hk.
      induction (map fst d) as [|x l IHl]; simpl in *.
      * apply List.NoDup_cons; assumption.
      * inversion Hnd' as [|? ? Hx Hl]; subst.
        apply List.NoDup_cons.
        -- intros Hin. apply in_app_or in Hin as [Hin|[<-|Hin]].
           ++ apply Hx. apply in_or_app. now left.
           ++ apply Hk. now left.
           ++ apply Hx. apply in_or_app. now right.
        -- apply IHl; [exact Hl|]. intros Hin. apply Hk. now right.
Qed.

Lemma collect_confirmed_order (settings : list ConfigSetting.t)
    (answers answers' : list bool) (t t' : tape) (d' : odict) :
  List.NoDup (map ConfigSetting.key settings) ->
  collect_confirmed settings [] answers t = (Return d', (t', answers')) ->
  exists values,
    length values = length settings
    /\ d' = combine (map ConfigSetting.key settings) values.
Proof.
  intros Hnd. revert t.
  induction answers as [|answer answers IH]; intros t; simpl;
    destruct (collect_settings settings [] t) as [[d|e] t1] eqn:Hcollect;
    try discriminate.
  destruct answer.
  - intros H; inversion H; subst.
    eapply (collect_settings_order settings []); [exact Hnd|exact Hcollect].
  - apply IH.
Qed.

Lemma catalog_settings (mode : GameMode.t) :
  In mode GAME_MODES ->
  List.NoDup (map ConfigSetting.key
                (get BASIC_CONFIG_SETTINGS (GameMode.name mode) []))
  /\ get BASIC_CONFIG_SETTINGS (GameMode.name mode) [] <> [].
Proof.
  intros Hmode. simpl in Hmode.
  destruct Hmode as [<-|[<-|[<-|[]]]]; split;
    solve [vm_compute; nodup_strings | vm_compute; discriminate].
Qed.

Lemma concat_cons (x : string) (l : list string) :
  Py.concat (x :: l) = String.append x (Py.concat l).
Proof. reflexivity. Qed.

Lemma config_lines_spec (settings : list ConfigSetting.t) (values : list string) :
  Py.concat (map config_line (combine (map ConfigSetting.key settings) values))
  = spec_file_of_lines
      (zip_with (fun setting value =>
                   spec_config_line (ConfigSetting.key setting) value)
                settings values).
Proof.
  revert values. induction settings as [|s settings IH]; intros [|v values];
    cbn [map combine zip_with]; try reflexivity.
  rewrite concat_cons, config_line_spec, IH. cbn [spec_file_of_lines].
  flatten_append. reflexivity.
Qed.

Lemma config_text_spec (mode : GameMode.t) (settings : list ConfigSetting.t)
    (values : list string) :
  config_text mode (combine (map ConfigSetting.key settings) values)
  = spec_config_text mode settings values.
Proof.
  unfold config_text, spec_config_text, spec_config_lines, config_header.
  cbn [app spec_file_of_lines]. rewrite !concat_cons, config_lines_spec.
  unfold nl. flatten_append. reflexivity.
Qed.

(** C9: when the basic configuration is saved, the file holds the three
    [//] comment lines and a blank line, then one line per setting of
    the mode in declared order, each with the value collected for it,
    [sv_port] and [sv_max_clients] with a bare value and every other key
    with its value in double quotes. *)
Theorem basic_configuration_file (h : host) (self : TeemakeBuilder)
    (build_path : string) (w w' : world) :
  let settings :=
    get BASIC_CONFIG_SETTINGS (GameMode.name (selected_mode self)) [] in
  In (selected_mode self) GAME_MODES ->
  _basic_configuration h self build_path w = (Return true, w') ->
  exists values,
    length values = length settings
    /\ fst (collect_confirmed settings [] (confirms w) (stdin w))
       = Return (combine (map ConfigSetting.key settings) values)
    /\ files w'
       = files w ++ [(Path_join build_path "basic_config.cfg",
                      spec_config_text (selected_mode self) settings values)].
Proof.
  intros settings Hmode.
  destruct (catalog_settings _ Hmode) as [Hnd Hne]. fold settings in Hnd, Hne.
  unfold _basic_configuration. fold settings.
  destruct settings as [|s0 ss] eqn:Hs; [congruence|]. rewrite <- Hs in *.
  unfold bind.
  destruct (collect_confirmed settings [] (confirms w) (stdin w))
    as [[d|e] [t a]] eqn:Hcollect; [|discriminate].
  apply collect_confirmed_order in Hcollect as (values & Hlen & ->);
    [|exact Hnd].
  unfold _save_config_file. simpl.
  destruct (open_w h (log w) _); [discriminate|].
  intros H; inversion H; subst. simpl.
  exists values. split; [exact Hlen|]. split; [reflexivity|].
  now rewrite config_text_spec.
Qed.

Lemma basic_configuration_file_witness :
  files (snd (_basic_configuration cmake_fails apt_builder "/srv" config_world))
  = [("/srv/basic_config.cfg",
      spec_file_of_lines
        ["// Teeworlds Server Configuration";
         "// Generated by TEEMAKE v3.0";
         "// Game Mode: Teeworlds";
         "";
         String.append "sv_name "
           (String "034" (String.append "X" (String "034" EmptyString)));
         "sv_port 8303";
         "sv_max_clients 16";
         String.append "sv_gametype "
           (String "034" (String.append "ctf" (String "034" EmptyString)))])].
Proof.
  destruct (basic_configuration_file cmake_fails apt_builder "/srv" config_world
              (snd (_basic_configuration cmake_fails apt_builder "/srv"
                      config_world))
              ltac:(left; reflexivity) ltac:(vm_compute; reflexivity))
    as (values & Hlen & Hvalues & Hfiles).
  rewrite Hfiles. clear Hfiles.
  destruct values as [|v1 [|v2 [|v3 [|v4 [|v5 values]]]]];
    try discriminate Hlen.
  vm_compute in Hvalues. inversion Hvalues; subst. reflexivity.
Defined.

(** The example of the specification: the port bare, the name quoted. *)
Example config_lines_example :
  map config_line [("sv_port", "8303"); ("sv_name", "X")]
  = [String.append "sv_port 8303" (String "010" EmptyString);
     String.append "sv_name "
       (String "034" (String.append "X" (String "034" (String "010" EmptyString))))].
Proof. reflexivity. Qed.

(** ** The build pipeline *)

Lemma same_place_refl (w : world) : same_place w w.
Proof. split; reflexivity. Qed.

Lemma same_place_restored (w w1 : world) : same_place w w1 -> restored w w1.
Proof.
  intros [Hc Hl]. split; [exact Hc|]. exists []. split.
  - now rewrite app_nil_r.
  - intros ev [].
Qed.

Lemma restored_after (w w1 w2 : world) :
  same_place w w1 -> restored w1 w2 -> restored w w2.
Proof.
  intros [Hc Hl] [Hc' (new & Hlog & Hsc)]. split; [congruence|].
  exists new. split; [congruence|exact Hsc].
Qed.

(** The terminal steps leave the working directory and the log alone. *)
Lemma on_stdin_same_place {A : Type} (f : tape -> outcome A * tape) (w : world) :
  same_place w (snd (on_stdin f w)).
Proof. unfold on_stdin. destruct (f (stdin w)). split; reflexivity. Qed.

Lemma Confirm_ask_same_place (w : world) : same_place w (snd (Confirm_ask w)).
Proof. unfold Confirm_ask. destruct (confirms w); split; reflexivity. Qed.

Lemma input_same_place (w : world) : same_place w (snd (input w)).
Proof. unfold input. destruct (stdin w); split; reflexivity. Qed.

Lemma ensure_sudo_same_place (h : host) (self : TeemakeBuilder) (w : world) :
  snd (ensure_sudo h self w) = w.
Proof.
  unfold ensure_sudo, sudo_prompt, ret. destruct (is_root self); [reflexivity|].
  destruct (subprocess_run (exec h (log w) ["sudo"; "-n"; "true"] None) _)
    as [r|e].
  - destruct (returncode r =? 0)%Z; [reflexivity|].
    destruct (subprocess_run _ _) as [r'|[]]; reflexivity.
  - destruct e; try reflexivity;
      destruct (subprocess_run _ _) as [r'|[]]; reflexivity.
Qed.

(** A step that leaves the place alone, followed by steps that restore
    it, restores it. *)
Lemma bind_restored {A B : Type} (m : M A) (k : A -> M B) (w : world) :
  same_place w (snd (m w)) ->
  (forall a w1, restored w1 (snd (k a w1))) ->
  restored w (snd (bind m k w)).
Proof.
  intros Hm Hk. unfold bind. destruct (m w) as [[a|e] w1]; simpl in *.
  - eapply restored_after; [exact Hm|apply Hk].
  - now apply same_place_restored.
Qed.

Lemma pause_restored {A : Type} (a : A) (w : world) :
  restored w (snd ((run input; ret a) w)).
Proof.
  apply bind_restored; [apply input_same_place|].
  intros _ w1. apply same_place_restored, same_place_refl.
Qed.

Lemma other_stages_short_circuit (l1 l2 : list event) :
  Forall other_stage l1 -> short_circuit l2 -> short_circuit (l1 ++ l2).
Proof.
  intros Hother Hsc ev Hin Hcfg Hfail ev' Hin'.
  rewrite Forall_forall in Hother.
  apply in_app_or in Hin as [Hin|Hin].
  - apply list_elem_of_In, Hother in Hin as [Hno _]. congruence.
  - apply in_app_or in Hin' as [Hin'|Hin'].
    + now apply list_elem_of_In, Hother in Hin' as [_ Hno].
    + now apply (Hsc ev).
Qed.

(** [install_dependencies] stays in place and adds at most the
    installation command. *)
Lemma install_dependencies_log (h : host) (self : TeemakeBuilder)
    (use_ninja : bool) (w : world) :
  cwd (snd (install_dependencies h self use_ninja w)) = cwd w
  /\ exists l1,
       log (snd (install_dependencies h self use_ninja w)) = log w ++ l1
       /\ Forall other_stage l1.
Proof.
  assert (Hquiet : forall w', same_place w w' ->
            cwd w' = cwd w /\ exists l1, log w' = log w ++ l1 /\ Forall other_stage l1).
  { intros w' [Hc Hl]. split; [exact Hc|]. exists [].
    split; [now rewrite app_nil_r|constructor]. }
  assert (Hrun : forall cmd,
            let m := (do (success, _, _) <-
                        run_command h self
                          ("Installing dependencies for "
                             +:+ GameMode.name (selected_mode self)
                             +:+ (if use_ninja then " with Ninja" else ""))
                          cmd None;
                      ret success) in
            cwd (snd (m w)) = cwd w
            /\ exists l1, log (snd (m w)) = log w ++ l1 /\ Forall other_stage l1).
  { intros cmd m. unfold m, bind, run_command, ret.
    destruct (run_command_result _ _) as [[[ok out] err]|e]; simpl;
      (split; [reflexivity|]; eexists; split; [reflexivity|]);
      repeat constructor. }
  unfold install_dependencies.
  destruct (package_manager self);
    try (destruct (_get_install_command self _) as [[|x xs]|];
         [apply Hquiet, same_place_refl | apply Hrun
         | apply Hquiet, same_place_refl]).
  apply Hquiet. unfold bind.
  pose proof (Confirm_ask_same_place w) as Hc.
  destruct (Confirm_ask w) as [[[|]|e] w1]; exact Hc.
Qed.

(** What each stage adds to the log. *)
Lemma clone_repository_log (h : host) (self : TeemakeBuilder)
    (source_path : string) (w : world) :
  exists ev,
    log (snd (clone_repository h self source_path w)) = log w ++ [ev]
    /\ other_stage ev.
Proof.
  unfold clone_repository, bind, run_command, ret.
  destruct (run_command_result _ _) as [[[[|] out] err]|e]; simpl;
    try (eexists; split; [reflexivity|split; reflexivity]).
  destruct (negb (path_exists h _ _)); simpl;
    eexists; split; try reflexivity; split; reflexivity.
Qed.

Lemma configure_build_log (h : host) (self : TeemakeBuilder)
    (build_path : string) (build_opts : list string) (w : world) :
  exists ev,
    log (snd (configure_build h self build_path build_opts w)) = log w ++ [ev]
    /\ is_compile ev = false
    /\ (fst (configure_build h self build_path build_opts w) = Return true ->
        succeeded ev = true).
Proof.
  unfold configure_build, bind, run_command, ret.
  destruct (run_command_result _ _) as [[[[|] out] err]|e]; simpl;
    eexists; (split; [reflexivity|]); (split; [reflexivity|]);
    simpl; intros H; try reflexivity; discriminate H.
Qed.

Lemma compile_server_log (h : host) (self : TeemakeBuilder)
    (build_path : string) (use_ninja : bool) (w : world) :
  exists ev,
    log (snd (compile_server h self build_path use_ninja w)) = log w ++ [ev]
    /\ is_configure ev = false.
Proof.
  unfold compile_server, bind, run_command, ret.
  destruct use_ninja;
    destruct (run_command_result _ _) as [[[ok out] err]|e]; simpl;
    eexists; split; reflexivity.
Qed.

(** The stages under [try ... finally]: clone, then configure, then
    compile, each only after the one before it succeeded. *)
Lemma pipeline_log (h : host) (self : TeemakeBuilder)
    (source_path build_path : string) (custom_build_opts : list string)
    (use_ninja : bool) (w : world) :
  exists l2,
    log (snd (pipeline h self source_path build_path custom_build_opts
                use_ninja w)) = log w ++ l2
    /\ short_circuit l2.
Proof.
  unfold pipeline, bind at 1.
  destruct (clone_repository_log h self source_path w) as (ev1 & Hlog1 & Hno1 & Hnc1).
  destruct (clone_repository h self source_path w) as [[cloned|e] w1];
    simpl in Hlog1; simpl.
  2: { exists [ev1]. split; [exact Hlog1|].
       intros ev [<-|[]]. congruence. }
  destruct cloned; simpl.
  2: { exists [ev1]. split; [exact Hlog1|].
       intros ev [<-|[]]. congruence. }
  unfold bind at 1.
  destruct (configure_build_log h self build_path custom_build_opts w1)
    as (ev2 & Hlog2 & Hnc2 & Hok2).
  destruct (configure_build h self build_path custom_build_opts w1)
    as [[configured|e] w2]; simpl in Hlog2, Hok2; simpl.
  2: { exists [ev1; ev2]. split.
       - rewrite Hlog2, Hlog1. now rewrite <- app_assoc.
       - intros ev _ _ _ ev' [<-|[<-|[]]]; assumption. }
  destruct configured; simpl.
  2: { exists [ev1; ev2]. split.
       - rewrite Hlog2, Hlog1. now rewrite <- app_assoc.
       - intros ev _ _ _ ev' [<-|[<-|[]]]; assumption. }
  specialize (Hok2 eq_refl).
  unfold bind.
  destruct (compile_server_log h self build_path use_ninja w2)
    as (ev3 & Hlog3 & Hno3).
  assert (Hshape : short_circuit [ev1; ev2; ev3]).
  { intros ev [<-|[<-|[<-|[]]]] Hcfg Hfail; congruence. }
  destruct (compile_server h self build_path use_ninja w2)
    as [[[|]|e] w3]; simpl in *;
    (exists [ev1; ev2; ev3]; split;
     [rewrite Hlog3, Hlog2, Hlog1; now rewrite <- !app_assoc|exact Hshape]).
Qed.

Lemma build_steps_restored (h : host) (self : TeemakeBuilder)
    (custom_build_opts : list string) (use_ninja : bool) (w : world) :
  restored w (snd (build_steps h self custom_build_opts use_ninja w)).
Proof.
  destruct (install_dependencies_log h self use_ninja w)
    as (Hcwd & l1 & Hlog & Hother).
  assert (Hsame : forall w1 w2,
            cwd w1 = cwd w -> log w1 = log w ++ l1 -> same_place w1 w2 ->
            restored w w2).
  { intros w1 w2 Hc Hl [Hc2 Hl2]. split; [congruence|]. exists l1.
    split; [congruence|].
    rewrite <- (app_nil_r l1). apply other_stages_short_circuit; [exact Hother|].
    intros ev []. }
  unfold build_steps, bind at 1.
  destruct (install_dependencies h self use_ninja w) as [[installed|e] w1];
    simpl in Hcwd, Hlog.
  2: { apply (Hsame w1); [assumption..|apply same_place_refl]. }
  destruct installed; simpl.
  2: { apply (Hsame w1); [assumption..|].
       unfold bind. pose proof (input_same_place w1) as Hin.
       destruct (input w1) as [[line|e] w2]; exact Hin. }
  unfold try_except, bind, Path_mkdir, Path_absolute, Path_cwd, ret.
  destruct (mkdir h (log w1) _); simpl.
  { apply (Hsame w1); [assumption..|apply same_place_refl]. }
  destruct (mkdir h (log w1) _); simpl.
  { apply (Hsame w1); [assumption..|apply same_place_refl]. }
  unfold try_finally, os_chdir.
  destruct (pipeline_log h self
              (if String.prefix "/" (Path_join (server_name self) "source")
               then Path_join (server_name self) "source"
               else Path_join (cwd w1) (Path_join (server_name self) "source"))
              (if String.prefix "/" (Path_join (server_name self) "server")
               then Path_join (server_name self) "server"
               else Path_join (cwd w1) (Path_join (server_name self) "server"))
              custom_build_opts use_ninja w1) as (l2 & Hlog2 & Hsc).
  destruct (pipeline _ _ _ _ _ _ w1) as [r w2]. simpl in Hlog2.
  unfold restored. simpl.
  split; [exact Hcwd|]. exists (l1 ++ l2). split.
  - rewrite Hlog2, Hlog. now rewrite app_assoc.
  - now apply other_stages_short_circuit.
Qed.

(** C8: however [build_server] ends, with a build path, with none, or
    with an exception, the working directory is the one it started in,
    and if a configure stage is in the log and did not succeed, no
    compile stage is in the log. *)
Theorem build_server_short_circuit (h : host) (initial_dir : string)
    (w : world) :
  cwd (snd (build_server h initial_dir w)) = cwd w
  /\ exists new,
       log (snd (build_server h initial_dir w)) = log w ++ new
       /\ (forall ev, In ev new ->
             is_configure ev = true -> succeeded ev = false ->
             forall ev', In ev' new -> is_compile ev' = false).
Proof.
  change (restored w (snd (build_server h initial_dir w))).
  unfold build_server.
  apply bind_restored; [apply on_stdin_same_place|]. intros name w1.
  apply bind_restored; [apply on_stdin_same_place|]. intros mode w2.
  apply bind_restored; [apply Confirm_ask_same_place|]. intros customize w3.
  apply bind_restored; [apply on_stdin_same_place|]. intros [opts ninja] w4.
  apply bind_restored; [apply Confirm_ask_same_place|]. intros verbose w5.
  destruct (negb (check_disk_space h initial_dir)); [apply pause_restored|].
  apply bind_restored.
  { rewrite ensure_sudo_same_place. apply same_place_refl. }
  intros sudo w6. destruct (negb sudo); [apply pause_restored|].
  apply bind_restored; [apply input_same_place|]. intros _ w7.
  apply build_steps_restored.
Qed.

Lemma build_server_short_circuit_witness :
  cwd (snd (build_server cmake_fails "/home/tee" myserver_world)) = "/home/tee"
  /\ exists new,
       log (snd (build_server cmake_fails "/home/tee" myserver_world)) = new
       /\ (forall ev, In ev new ->
             is_configure ev = true -> succeeded ev = false ->
             forall ev', In ev' new -> is_compile ev' = false).
Proof.
  exact (build_server_short_circuit cmake_fails "/home/tee" myserver_world).
Defined.

(** On the host where [cmake] fails the run stops after the configure
    stage and reports no build path. *)
Example configure_failure_stops_the_build :
  fst (build_server cmake_fails "/home/tee" myserver_world) = Return None
  /\ map ev_description
       (log (snd (build_server cmake_fails "/home/tee" myserver_world)))
     = ["Installing dependencies for Teeworlds"; "Downloading Teeworlds";
        "Initializing build system"].
Proof. split; vm_compute; reflexivity. Qed.

(** On a host where everything succeeds all four stages run, the last
    one with sixteen jobs on a machine of sixty-four cores. *)
Example successful_build_compiles :
  fst (build_server all_succeed "/home/tee" myserver_world)
  = Return (Some "/home/tee/myserver/server")
  /\ map ev_command
       (log (snd (build_server all_succeed "/home/tee" myserver_world)))
     = [["apt-get"; "install"; "-y"; "build-essential"; "cmake"; "git";
         "python3"; "libfreetype6-dev"; "libsdl2-dev"; "libpnglite-dev";
         "libwavpack-dev"];
        ["git"; "clone"; "--recursive";
         "https://github.com/teeworlds/teeworlds.git"; "."];
        ["cmake"; "../source/"; "-DCLIENT=OFF"; "-DSERVER=ON"];
        ["make"; "-j16"]].
Proof. split; vm_compute; reflexivity. Qed.

(** * Further properties of the wizard and the pipeline *)

(** ** The name prompt *)

Lemma lstrip_head (s : string) :
  Py.lstrip s = EmptyString
  \/ exists c r, Py.lstrip s = String c r /\ Py.is_space c = false.
Proof.
  induction s as [|c s IH]; simpl; [now left|].
  destruct (Py.is_space c) eqn:Hc; [exact IH|]. right. now exists c, s.
Qed.

Lemma rev_app_app (s1 s2 : string) :
  String.rev_app s1 s2 = String.rev_app s1 EmptyString +:+ s2.
Proof.
  revert s2. induction s1 as [|c s1 IH]; intros s2; [reflexivity|].
  simpl. rewrite (IH (String c s2)), (IH (String c EmptyString)).
  generalize (String.rev_app s1 EmptyString). intros x.
  induction x as [|d x IHx]; [reflexivity|].
  change (String d (x +:+ String c s2) = String d ((x +:+ String c EmptyString) +:+ s2)).
  now f_equal.
Qed.

Lemma rstrip_tidy_end (s : string) : tidy_end (Py.rstrip s).
Proof.
  unfold Py.rstrip.
  destruct (lstrip_head (String.rev s)) as [-> | (c & r & -> & Hc)].
  - now left.
  - right. exists (String.rev r), c. split; [|exact Hc].
    unfold String.rev. simpl. apply rev_app_app.
Qed.

Lemma lstrip_tidy_end (s : string) : tidy_end s -> tidy_end (Py.lstrip s).
Proof.
  intros [-> | (front & c & -> & Hc)]; [now left|]. right.
  induction front as [|d front IH].
  - exists EmptyString, c. simpl. rewrite Hc. split; reflexivity.
  - change (String d front +:+ String c EmptyString)
      with (String d (front +:+ String c EmptyString)).
    simpl. destruct (Py.is_space d); [exact IH|].
    exists (String d front), c. split; [reflexivity|exact Hc].
Qed.

Lemma strip_tidy_end (s : string) : tidy_end (Py.strip s).
Proof. apply lstrip_tidy_end, rstrip_tidy_end. Qed.

Lemma last_char_eq (a b : string) (c d : ascii) :
  a +:+ String c EmptyString = b +:+ String d EmptyString -> c = d.
Proof.
  revert b. induction a as [|x a IH]; intros [|y b] H.
  - now inversion H.
  - change (String c EmptyString = String y (b +:+ String d EmptyString)) in H.
    inversion H as [[Hx Hb]]. destruct b; discriminate Hb.
  - change (String x (a +:+ String c EmptyString) = String d EmptyString) in H.
    inversion H as [[Hx Ha]]. destruct a; discriminate Ha.
  - change (String x (a +:+ String c EmptyString)
            = String y (b +:+ String d EmptyString)) in H.
    inversion H. now apply (IH b).
Qed.

Lemma strip_no_final_newline (s body : string) : Py.strip s <> body +:+ nl.
Proof.
  intros H. destruct (strip_tidy_end s) as [He | (front & c & Hs & Hc)].
  - rewrite He in H. destruct body; discriminate H.
  - rewrite Hs in H. apply last_char_eq in H. subst c. discriminate Hc.
Qed.

(** A returned name is a typed line, stripped, that passed the check. *)
Lemma get_server_name_returns (t t' : tape) (name : string) :
  get_server_name t = (Return name, t') ->
  exists line, name = Py.strip line /\ validate_server_name name = true.
Proof.
  remember (length t) as n eqn:Hn.
  assert (Hle : length t <= n) by lia. clear Hn.
  revert t t' Hle. induction n as [|n IH]; intros t t' Hle;
    (destruct t as [|line t]; simpl; [discriminate|]); simpl in Hle; [lia|].
  destruct (validate_server_name (Py.strip line)) eqn:Hv.
  - intros H; inversion H; subst. now exists line.
  - destruct t as [|enter t]; [discriminate|].
    apply IH. simpl in Hle. lia.
Qed.

(** X1: whatever is typed, a name that [get_server_name] returns obeys
    the rule of the specification: 1 to 64 characters of [[A-Za-z0-9_-]]
    (so no path separator and no line feed). *)
Theorem get_server_name_valid (t t' : tape) (name : string) :
  get_server_name t = (Return name, t') ->
  spec_valid_name name = true /\ validate_server_name name = true.
Proof.
  intros Hget. apply get_server_name_returns in Hget as (line & -> & Hv).
  split; [|exact Hv].
  apply validate_server_name_accepts in Hv as [Hv|(body & Hb & _)]; [exact Hv|].
  exfalso. now apply strip_no_final_newline in Hb.
Qed.

Lemma get_server_name_valid_witness :
  spec_valid_name "my-server_1" = true
  /\ validate_server_name "my-server_1" = true.
Proof.
  apply (get_server_name_valid ["bad name"; ""; " my-server_1 "; "x"] ["x"]).
  reflexivity.
Defined.

(** ** The mode menu *)

Lemma select_game_mode_outcomes (t : tape) :
  (forall mode t', select_game_mode t = (Return mode, t') -> In mode GAME_MODES)
  /\ (forall e t', select_game_mode t = (Raise e, t') -> e = EOFError).
Proof.
  remember (length t) as n eqn:Hn.
  assert (Hle : length t <= n) by lia. clear Hn.
  revert t Hle. induction n as [|n IH]; intros t Hle;
    (destruct t as [|line t]; [split; intros ? ? H; inversion H; reflexivity|]);
    simpl in Hle; [lia|].
  assert (Hagain :
    (forall mode t',
        match t with [] => (Raise EOFError, []) | _ :: t'' => select_game_mode t'' end
        = (Return mode, t') -> In mode GAME_MODES)
    /\ (forall e t',
        match t with [] => (Raise EOFError, []) | _ :: t'' => select_game_mode t'' end
        = (Raise e, t') -> e = EOFError)).
  { destruct t as [|enter t].
    - split; intros ? ? H; inversion H; reflexivity.
    - apply IH. simpl in Hle. lia. }
  unfold select_game_mode; fold select_game_mode.
  destruct (Py.int (Prompt_ask None line)) as [idx|]; [|exact Hagain].
  destruct ((1 <=? idx)%Z && (idx <=? Z.of_nat (length GAME_MODES))%Z) eqn:Hrange;
    [|exact Hagain].
  apply andb_prop in Hrange as [Hlo Hhi].
  apply Z.leb_le in Hlo, Hhi. simpl in Hhi.
  assert (Hidx : Z.to_nat (idx - 1) = 0 \/ Z.to_nat (idx - 1) = 1
                 \/ Z.to_nat (idx - 1) = 2) by lia.
  destruct Hidx as [-> | [-> | ->]]; simpl;
    (split; intros ? ? H; inversion H; subst; simpl; tauto).
Qed.



(** ** The settings form *)



(** ** Probing the host *)

(** X4: [_detect_package_manager] answers UNKNOWN exactly when none of
    the five binaries is found; otherwise the binary of the manager it
    names is found, and [apt-get] wins over every other manager. *)
Theorem detect_package_manager_priority (h : host) :
  (_detect_package_manager h = UNKNOWN <->
   which h "apt-get" = false /\ which h "dnf" = false /\ which h "yum" = false
   /\ which h "pacman" = false /\ which h "zypper" = false)
  /\ (_detect_package_manager h <> UNKNOWN ->
      which h (PackageManagerEnum.value (_detect_package_manager h)) = true)
  /\ (which h "apt-get" = true -> _detect_package_manager h = APT).
Proof.
  unfold _detect_package_manager.
  destruct (which h "apt-get") eqn:Hapt, (which h "dnf") eqn:Hdnf,
    (which h "yum") eqn:Hyum, (which h "pacman") eqn:Hpac,
    (which h "zypper") eqn:Hzyp; simpl;
    repeat split; try congruence; try tauto;
    try (intros (? & ? & ? & ? & ?); congruence).
Qed.

Lemma detect_package_manager_priority_witness :
  _detect_package_manager cmake_fails = PACMAN
  /\ which cmake_fails "pacman" = true.
Proof.
  split; [reflexivity|].
  apply (proj1 (proj2 (detect_package_manager_priority cmake_fails))).
  discriminate.
Defined.

(** ** Selectors that name nothing *)

(** X5: a line [<selector>=<value>] whose selector is a number that
    [int] reads and that lies outside 1..n, or a name without a square
    bracket that is not in the table, changes nothing: the state is kept
    and the loop goes round again after one pause.  (The warning for an
    unknown name prints the name; a name that holds a markup tag is left
    aside.) *)
Theorem unknown_selector_changes_nothing (available : list BuildOption.t)
    (st : cust_state) (line option_part value : string) :
  parse_line line = Assign option_part value ->
  (Py.isdigit option_part = true /\
   exists idx, Py.int option_part = Some idx
               /\ (idx < 1 \/ Z.of_nat (length available) < idx)%Z)
  \/ (Py.isdigit option_part = false /\
      plain_text option_part = true /\
      forall opt, In opt available -> BuildOption.name opt <> option_part) ->
  loop_body available st line = Next st 1.
Proof.
  intros Hparse Hsel. unfold loop_body. rewrite Hparse.
  destruct Hsel as [(Hdig & idx & Hint & Hout)|(Hdig & _ & Habsent)];
    rewrite Hdig.
  - rewrite Hint. unfold assign_by_index.
    replace ((1 <=? idx)%Z && (idx <=? Z.of_nat (length available))%Z) with false;
      [reflexivity|].
    symmetry. apply andb_false_iff.
    destruct Hout as [Hlo|Hhi]; [left|right]; apply Z.leb_gt; lia.
  - unfold assign_by_name. now rewrite scan_by_name_absent.
Qed.

Lemma unknown_selector_changes_nothing_witness :
  loop_body teeworlds_options ninja_tools_state "7=ON" = Next ninja_tools_state 1
  /\ loop_body teeworlds_options ninja_tools_state "-DMYSQL=ON"
     = Next ninja_tools_state 1.
Proof.
  split.
  - apply (unknown_selector_changes_nothing teeworlds_options ninja_tools_state
             "7=ON" "7" "ON"); [reflexivity|].
    left. split; [reflexivity|]. exists 7%Z. split; [reflexivity|].
    right. vm_compute. reflexivity.
  - apply (unknown_selector_changes_nothing teeworlds_options ninja_tools_state
             "-DMYSQL=ON" "-DMYSQL" "ON"); [reflexivity|].
    right. split; [reflexivity|]. split; [reflexivity|].
    vm_compute. intros opt Hopt.
    repeat (destruct Hopt as [<-|Hopt]; [discriminate|]). destruct Hopt.
Defined.

(** ** The stages one by one *)

(** X6: [clone_repository] reports success exactly when [git clone]
    succeeded and the [.git] directory is found afterwards; a zero exit
    code without the directory is a failure. *)
Theorem clone_repository_success (h : host) (self : TeemakeBuilder)
    (source_path : string) (w : world) :
  let command :=
    ["git"; "clone"; "--recursive"; GameMode.url (selected_mode self); "."] in
  let result :=
    run_command_result (verbose self)
      (exec h (log w) command (Some source_path)) in
  fst (clone_repository h self source_path w) = Return true <->
  (exists out err, result = Return (true, out, err))
  /\ path_exists h (log (snd (clone_repository h self source_path w)))
       (Path_join source_path ".git") = true.
Proof.
  intros command result. unfold clone_repository, bind, run_command, ret.
  fold command. fold result.
  destruct result as [[[[|] out] err]|e]; simpl.
  - destruct (path_exists h _ _) eqn:Hgit; simpl.
    + split; [intros _; split; [eauto|exact Hgit]|reflexivity].
    + split; [discriminate|]. intros [_ H]. congruence.
  - split; [discriminate|]. intros [(o & e & H) _]. discriminate H.
  - split; [discriminate|]. intros [(o & e' & H) _]. discriminate H.
Qed.


(** X8: in quiet mode [run_command] reports success exactly for a
    process that exits with code 0 within the 3600 seconds, and then
    with the output the process wrote; a process that cannot be
    launched, is interrupted, runs longer or exits with another code is
    never reported as a success. *)
Theorem run_command_quiet_outcomes (p : process) (out err : string) :
  run_command_result false p = Return (true, out, err) <->
  exists seconds, p = Exits seconds 0 out err /\ (seconds <= 3600)%Z.
Proof.
  destruct p as [[|] msg| |seconds rc out0 err0]; simpl.
  - split; [discriminate|intros (s & H & _); discriminate H].
  - split; [discriminate|intros (s & H & _); discriminate H].
  - split; [discriminate|intros (s & H & _); discriminate H].
  - destruct (Z.ltb_spec 3600 seconds) as [Hlate|Hok]; simpl.
    + split; [discriminate|].
      intros (s & H & Hs). inversion H; subst. lia.
    + destruct (Z.eqb_spec rc 0) as [->|Hrc]; split.
      * intros H; inversion H; subst. eauto.
      * intros (s & H & _). inversion H; subst. reflexivity.
      * discriminate.
      * intros (s & H & _). inversion H; subst. congruence.
Qed.

(** ** Reasoning about [bind] *)

Lemma bind_elim {A B : Type} (m : M A) (k : A -> M B) (w : world)
    (Q : outcome B * world -> Prop) :
  (forall a w1, m w = (Return a, w1) -> Q (k a w1)) ->
  (forall e w1, m w = (Raise e, w1) -> Q (Raise e, w1)) ->
  Q (bind m k w).
Proof.
  intros Hret Hraise. unfold bind.
  destruct (m w) as [[a|e] w1]; [now apply Hret|now apply Hraise].
Qed.

Lemma same_place_eq {A : Type} (m : M A) (w w1 : world) (r : outcome A) :
  same_place w (snd (m w)) -> m w = (r, w1) -> same_place w w1.
Proof. intros H Heq. now rewrite Heq in H. Qed.

(** ** Stopping before the first command *)

Lemma pause_nothing_run {A : Type} (w0 w : world) :
  log w = log w0 ->
  nothing_run (A := A) w0 ((run input; ret None) w).
Proof.
  intros Hlog. apply bind_elim.
  - intros line w1 Hin. apply (same_place_eq _ _ _ _ (input_same_place w)) in Hin
      as [_ Hl]. split; [simpl; congruence|discriminate].
  - intros e w1 Hin. apply (same_place_eq _ _ _ _ (input_same_place w)) in Hin
      as [_ Hl]. split; [simpl; congruence|discriminate].
Qed.

(** X9: when the disk-space check fails, [build_server] does not call
    [run_command] once (nothing is installed, cloned, configured or
    compiled) and returns no build path, whatever was typed. *)
Theorem build_server_low_disk (h : host) (initial_dir : string) (w : world) :
  check_disk_space h initial_dir = false ->
  log (snd (build_server h initial_dir w)) = log w
  /\ forall p, fst (build_server h initial_dir w) <> Return (Some p).
Proof.
  intros Hdisk. change (nothing_run w (build_server h initial_dir w)).
  unfold build_server. rewrite Hdisk. simpl negb. cbv iota.
  assert (Hstop : forall A (e : exn) (w1 : world),
            log w1 = log w -> nothing_run (A := A) w (Raise e, w1)).
  { intros A e w1 Hl. split; [exact Hl|discriminate]. }
  apply bind_elim; [intros name w1 H1|intros e w1 H1];
    apply (same_place_eq _ _ _ _ (on_stdin_same_place _ w)) in H1 as [_ Hl1];
    [|now apply Hstop].
  apply bind_elim; [intros mode w2 H2|intros e w2 H2];
    apply (same_place_eq _ _ _ _ (on_stdin_same_place _ w1)) in H2 as [_ Hl2];
    [|apply Hstop; congruence].
  apply bind_elim; [intros customize w3 H3|intros e w3 H3];
    apply (same_place_eq _ _ _ _ (Confirm_ask_same_place w2)) in H3 as [_ Hl3];
    [|apply Hstop; congruence].
  apply bind_elim; [intros [opts ninja] w4 H4|intros e w4 H4];
    apply (same_place_eq _ _ _ _ (on_stdin_same_place _ w3)) in H4 as [_ Hl4];
    [|apply Hstop; congruence].
  apply bind_elim; [intros verbose w5 H5|intros e w5 H5];
    apply (same_place_eq _ _ _ _ (Confirm_ask_same_place w4)) in H5 as [_ Hl5];
    [|apply Hstop; congruence].
  apply pause_nothing_run. congruence.
Qed.

Lemma build_server_low_disk_witness :
  log (snd (build_server small_disk "/home/tee" myserver_world)) = [].
Proof.
  apply (proj1 (build_server_low_disk small_disk "/home/tee" myserver_world
                  ltac:(vm_compute; reflexivity))).
Defined.

(** ** No stage after a failed one *)

Lemma chain_nil : chain [].
Proof. intros [|x l1] ev l2 H; discriminate H. Qed.

Lemma chain_one (ev : event) : chain [ev].
Proof.
  intros [|x l1] ev' l2 H _; inversion H; [reflexivity|].
  destruct l1; discriminate.
Qed.

Lemma chain_app (l1 l2 : list event) :
  all_succeeded l1 -> chain l2 -> chain (l1 ++ l2).
Proof.
  intros Hall Hchain a ev b Heq Hfail.
  apply List.app_eq_app in Heq as (l & [[Ha Hb]|[Ha Hb]]).
  - destruct l as [|x l]; simpl in Hb.
    + apply (Hchain [] ev b); [now rewrite <- Hb|exact Hfail].
    + inversion Hb; subst. rewrite Hall in Hfail; [discriminate|].
      apply in_or_app. right. now left.
  - now apply (Hchain l ev b).
Qed.

Lemma all_succeeded_app (l1 l2 : list event) :
  all_succeeded l1 -> all_succeeded l2 -> all_succeeded (l1 ++ l2).
Proof.
  intros H1 H2 ev Hin. apply in_app_or in Hin as [Hin|Hin]; auto.
Qed.

Lemma all_succeeded_one (ev : event) :
  succeeded ev = true -> all_succeeded [ev].
Proof. intros H ev' [<-|[]]. exact H. Qed.

Lemma all_succeeded_nil : all_succeeded [].
Proof. intros ev []. Qed.

(** Each stage adds at most one event, which succeeded if the stage
    answers true. *)
Lemma clone_repository_event (h : host) (self : TeemakeBuilder)
    (source_path : string) (w : world) :
  exists ev,
    log (snd (clone_repository h self source_path w)) = log w ++ [ev]
    /\ cwd (snd (clone_repository h self source_path w)) = cwd w
    /\ (fst (clone_repository h self source_path w) = Return true ->
        succeeded ev = true).
Proof.
  unfold clone_repository, bind, run_command, ret.
  destruct (run_command_result _ _) as [[[[|] out] err]|e]; simpl.
  - destruct (negb (path_exists h _ _)); simpl;
      eexists; repeat split; discriminate.
  - eexists; repeat split; discriminate.
  - eexists; repeat split; discriminate.
Qed.

Lemma compile_server_event (h : host) (self : TeemakeBuilder)
    (build_path : string) (use_ninja : bool) (w : world) :
  exists ev,
    log (snd (compile_server h self build_path use_ninja w)) = log w ++ [ev]
    /\ (fst (compile_server h self build_path use_ninja w) = Return true ->
        succeeded ev = true).
Proof.
  unfold compile_server, bind, run_command, ret.
  destruct use_ninja;
    destruct (run_command_result _ _) as [[[[|] out] err]|e]; simpl;
    eexists; repeat split; discriminate.
Qed.

Lemma install_dependencies_event (h : host) (self : TeemakeBuilder)
    (use_ninja : bool) (w : world) :
  exists l,
    log (snd (install_dependencies h self use_ninja w)) = log w ++ l
    /\ chain l
    /\ (fst (install_dependencies h self use_ninja w) = Return true ->
        all_succeeded l).
Proof.
  assert (Hquiet : forall (r : outcome bool) w',
            log w' = log w ->
            exists l, log w' = log w ++ l /\ chain l
                      /\ (r = Return true -> all_succeeded l)).
  { intros r w' Hl. exists []. rewrite app_nil_r.
    split; [exact Hl|]. split; [apply chain_nil|]. intros _. apply all_succeeded_nil. }
  assert (Hrun : forall cmd,
            let m := (do (success, _, _) <-
                        run_command h self
                          ("Installing dependencies for "
                             +:+ GameMode.name (selected_mode self)
                             +:+ (if use_ninja then " with Ninja" else ""))
                          cmd None;
                      ret success) in
            exists l, log (snd (m w)) = log w ++ l /\ chain l
                      /\ (fst (m w) = Return true -> all_succeeded l)).
  { intros cmd m. unfold m, bind, run_command, ret.
    destruct (run_command_result _ _) as [[[[|] out] err]|e]; simpl;
      eexists; (split; [reflexivity|]); (split; [apply chain_one|]);
      intros H; try discriminate H. now apply all_succeeded_one. }
  unfold install_dependencies.
  destruct (package_manager self);
    try (destruct (_get_install_command self _) as [[|x xs]|];
         [now apply Hquiet | apply Hrun | now apply Hquiet]).
  unfold bind. pose proof (Confirm_ask_same_place w) as [_ Hc].
  destruct (Confirm_ask w) as [[[|]|e] w1]; now apply Hquiet.
Qed.

Lemma bind_unfold {A B : Type} (m : M A) (k : A -> M B) (w : world) :
  bind m k w
  = match m w with
    | (Return a, w') => k a w'
    | (Raise e, w') => (Raise e, w')
    end.
Proof. reflexivity. Qed.

Lemma pipeline_orderly (h : host) (self : TeemakeBuilder)
    (source_path build_path : string) (custom_build_opts : list string)
    (use_ninja : bool) (w : world) :
  exists l,
    log (snd (pipeline h self source_path build_path custom_build_opts
                use_ninja w)) = log w ++ l
    /\ chain l
    /\ (forall p,
          fst (pipeline h self source_path build_path custom_build_opts
                 use_ninja w) = Return (Some p) ->
          all_succeeded l /\ p = build_path).
Proof.
  unfold pipeline. rewrite bind_unfold.
  destruct (clone_repository_event h self source_path w) as (ev1 & Hlog1 & _ & Hok1).
  destruct (clone_repository h self source_path w) as [[[|]|e] w1];
    simpl in Hlog1, Hok1; simpl.
  2-3: exists [ev1]; split; [exact Hlog1|]; split; [apply chain_one|];
       intros p H; unfold ret in H; simpl in H; discriminate H.
  specialize (Hok1 eq_refl). rewrite bind_unfold.
  destruct (configure_build_log h self build_path custom_build_opts w1)
    as (ev2 & Hlog2 & _ & Hok2).
  destruct (configure_build h self build_path custom_build_opts w1)
    as [[[|]|e] w2]; simpl in Hlog2, Hok2; simpl.
  2-3: exists ([ev1] ++ [ev2]); split;
       [rewrite Hlog2, Hlog1; now rewrite <- app_assoc|]; split;
       [apply chain_app; [now apply all_succeeded_one|apply chain_one]|];
       intros p H; unfold ret in H; simpl in H; discriminate H.
  specialize (Hok2 eq_refl). rewrite bind_unfold.
  destruct (compile_server_event h self build_path use_ninja w2)
    as (ev3 & Hlog3 & Hok3).
  assert (Hchain : chain ([ev1; ev2] ++ [ev3])).
  { apply chain_app; [|apply chain_one].
    intros ev [<-|[<-|[]]]; assumption. }
  destruct (compile_server h self build_path use_ninja w2) as [[[|]|e] w3];
    simpl in Hlog3, Hok3; simpl;
    (exists ([ev1; ev2] ++ [ev3]); split;
     [rewrite Hlog3, Hlog2, Hlog1; now rewrite <- !app_assoc|];
     split; [exact Hchain|]); intros p H; unfold ret in H; simpl in H; try discriminate H.
  inversion H; subst. split; [|reflexivity].
  intros ev [<-|[<-|[<-|[]]]]; auto.
Qed.

Lemma build_steps_orderly (h : host) (self : TeemakeBuilder)
    (custom_build_opts : list string) (use_ninja : bool) (w : world) :
  exists l,
    log (snd (build_steps h self custom_build_opts use_ninja w)) = log w ++ l
    /\ chain l
    /\ (forall p,
          fst (build_steps h self custom_build_opts use_ninja w)
          = Return (Some p) ->
          all_succeeded l
          /\ p = if String.prefix "/" (Path_join (server_name self) "server")
                 then Path_join (server_name self) "server"
                 else Path_join (cwd w) (Path_join (server_name self) "server")).
Proof.
  destruct (install_dependencies_event h self use_ninja w)
    as (l1 & Hlog & Hchain & Hok).
  destruct (install_dependencies_log h self use_ninja w) as (Hcwd & _).
  assert (Hstop : forall (r : outcome (option string)) w2,
            log w2 = log w ++ l1 -> (forall p, r <> Return (Some p)) ->
            exists l, log w2 = log w ++ l /\ chain l
                      /\ (forall p, r = Return (Some p) -> all_succeeded l /\
                            p = if String.prefix "/" (Path_join (server_name self) "server")
                                then Path_join (server_name self) "server"
                                else Path_join (cwd w)
                                       (Path_join (server_name self) "server"))).
  { intros r w2 Hl Hno. exists l1. split; [exact Hl|]. split; [exact Hchain|].
    intros p Hp. now apply Hno in Hp. }
  unfold build_steps. rewrite bind_unfold.
  destruct (install_dependencies h self use_ninja w) as [[[|]|e] w1];
    simpl in Hlog, Hok, Hcwd; simpl.
  3: { apply Hstop; [exact Hlog|discriminate]. }
  2: { rewrite bind_unfold. pose proof (input_same_place w1) as [_ Hin].
       destruct (input w1) as [[line|e] w2]; simpl in Hin;
         unfold ret; simpl;
         (apply Hstop; [congruence|discriminate]). }
  specialize (Hok eq_refl).
  unfold try_except, bind, Path_mkdir, Path_absolute, Path_cwd, ret.
  destruct (mkdir h (log w1) _); simpl.
  { apply Hstop; [exact Hlog|discriminate]. }
  destruct (mkdir h (log w1) _); simpl.
  { apply Hstop; [exact Hlog|discriminate]. }
  unfold try_finally, os_chdir.
  destruct (pipeline_orderly h self
              (if String.prefix "/" (Path_join (server_name self) "source")
               then Path_join (server_name self) "source"
               else Path_join (cwd w1) (Path_join (server_name self) "source"))
              (if String.prefix "/" (Path_join (server_name self) "server")
               then Path_join (server_name self) "server"
               else Path_join (cwd w1) (Path_join (server_name self) "server"))
              custom_build_opts use_ninja w1) as (l2 & Hlog2 & Hchain2 & Hok2).
  destruct (pipeline _ _ _ _ _ _ w1) as [r w2]. simpl in Hlog2, Hok2. simpl.
  exists (l1 ++ l2). split; [rewrite Hlog2, Hlog; now rewrite app_assoc|].
  split; [now apply chain_app|].
  intros p Hp. destruct (Hok2 p Hp) as [Hall ->]. rewrite Hcwd.
  split; [now apply all_succeeded_app|reflexivity].
Qed.

Lemma returned_name_relative (t t' : tape) (name : string) :
  get_server_name t = (Return name, t') ->
  spec_valid_name name = true
  /\ String.prefix "/" (Path_join name "server") = false.
Proof.
  intros Hget. apply get_server_name_returns in Hget as (line & -> & Hv).
  apply validate_server_name_accepts in Hv as [Hv|(body & Hb & _)];
    [|exfalso; now apply strip_no_final_newline in Hb].
  split; [exact Hv|]. unfold spec_valid_name in Hv.
  repeat (apply andb_prop in Hv as [Hv ?]).
  destruct (Py.strip line) as [|c s]; [discriminate Hv|].
  match goal with Hx : all_name_chars _ = true |- _ =>
    simpl in Hx; apply andb_prop in Hx as [Hc _] end.
  unfold Path_join.
  change (String c s +:+ "/" +:+ "server") with (String c (s +:+ "/" +:+ "server")).
  cbn -[ascii_dec String.app].
  destruct (ascii_dec "/" c) as [<-|_]; [discriminate Hc|reflexivity].
Qed.

(** X10: of the commands [build_server] runs through [run_command]
    (install, clone, configure, compile), none is launched after one
    that did not succeed; and when a build path is returned, each of
    them succeeded and the path is [<start directory>/<name>/server] for
    a name that obeys the naming rule. *)
Theorem build_server_orderly (h : host) (initial_dir : string) (w : world) :
  exists new,
    log (snd (build_server h initial_dir w)) = log w ++ new
    /\ (forall l1 ev l2,
          new = l1 ++ ev :: l2 -> succeeded ev = false -> l2 = [])
    /\ (forall p,
          fst (build_server h initial_dir w) = Return (Some p) ->
          (forall ev, In ev new -> succeeded ev = true)
          /\ exists name,
               spec_valid_name name = true
               /\ p = Path_join (cwd w) (Path_join name "server")).
Proof.
  set (Q := fun r : outcome (option string) * world =>
    exists new,
      log r.2 = log w ++ new /\ chain new
      /\ (forall p, r.1 = Return (Some p) ->
            all_succeeded new
            /\ exists name, spec_valid_name name = true
                 /\ p = Path_join (cwd w) (Path_join name "server"))).
  change (Q (build_server h initial_dir w)).
  assert (Hstop : forall (r : outcome (option string)) (w1 : world),
            log w1 = log w -> (forall p, r <> Return (Some p)) -> Q (r, w1)).
  { intros r w1 Hl Hno. exists []. rewrite app_nil_r.
    split; [exact Hl|]. split; [apply chain_nil|].
    intros p Hp. now apply Hno in Hp. }
  assert (Hpause : forall w1, same_place w w1 -> Q ((run input; ret None) w1)).
  { intros w1 [_ Hl]. rewrite bind_unfold.
    pose proof (input_same_place w1) as [_ Hin].
    destruct (input w1) as [[line|e] w2]; simpl in Hin; unfold ret;
      (apply Hstop; [congruence|discriminate]). }
  unfold build_server.
  apply bind_elim; [intros name w1 H1|intros e w1 H1];
    pose proof (same_place_eq _ _ _ _ (on_stdin_same_place _ w) H1) as [Hc1 Hl1];
    [|apply Hstop; [exact Hl1|discriminate]].
  assert (Hname : spec_valid_name name = true
                  /\ String.prefix "/" (Path_join name "server") = false).
  { unfold on_stdin in H1.
    destruct (get_server_name (stdin w)) as [r t'] eqn:Hget.
    inversion H1; subst. now apply (returned_name_relative _ _ _ Hget). }
  destruct Hname as [Hvalid Hrel].
  apply bind_elim; [intros mode w2 H2|intros e w2 H2];
    pose proof (same_place_eq _ _ _ _ (on_stdin_same_place _ w1) H2) as [Hc2 Hl2];
    [|apply Hstop; [congruence|discriminate]].
  apply bind_elim; [intros customize w3 H3|intros e w3 H3];
    pose proof (same_place_eq _ _ _ _ (Confirm_ask_same_place w2) H3) as [Hc3 Hl3];
    [|apply Hstop; [congruence|discriminate]].
  apply bind_elim; [intros [opts ninja] w4 H4|intros e w4 H4];
    pose proof (same_place_eq _ _ _ _ (on_stdin_same_place _ w3) H4) as [Hc4 Hl4];
    [|apply Hstop; [congruence|discriminate]].
  apply bind_elim; [intros verbose w5 H5|intros e w5 H5];
    pose proof (same_place_eq _ _ _ _ (Confirm_ask_same_place w4) H5) as [Hc5 Hl5];
    [|apply Hstop; [congruence|discriminate]].
  destruct (negb (check_disk_space h initial_dir));
    [apply Hpause; split; congruence|].
  apply bind_elim; [intros sudo w6 H6|intros e w6 H6];
    (match type of H6 with
     | ensure_sudo _ ?self _ = _ =>
         assert (Hw6 : w6 = w5)
           by (rewrite <- (ensure_sudo_same_place h self w5); now rewrite H6)
     end);
    subst w6; [|apply Hstop; [congruence|discriminate]].
  destruct (negb sudo); [apply Hpause; split; congruence|].
  apply bind_elim; [intros enter w7 H7|intros e w7 H7];
    pose proof (same_place_eq _ _ _ _ (input_same_place w5) H7) as [Hc7 Hl7];
    [|apply Hstop; [congruence|discriminate]].
  match goal with |- Q (build_steps h ?self opts ninja w7) =>
    destruct (build_steps_orderly h self opts ninja w7)
      as (l & Hlog & Hchain & Hok) end.
  exists l. split; [rewrite Hlog; f_equal; congruence|].
  split; [exact Hchain|].
  intros p Hp. destruct (Hok p Hp) as [Hall ->]. split; [exact Hall|].
  exists name. split; [exact Hvalid|]. simpl. rewrite Hrel.
  f_equal. congruence.
Qed.

Lemma build_server_orderly_witness :
  exists new,
    log (snd (build_server all_succeed "/home/tee" myserver_world)) = new
    /\ (forall l1 ev l2,
          new = l1 ++ ev :: l2 -> succeeded ev = false -> l2 = [])
    /\ (forall p,
          fst (build_server all_succeed "/home/tee" myserver_world)
          = Return (Some p) ->
          (forall ev, In ev new -> succeeded ev = true)
          /\ exists name,
               spec_valid_name name = true
               /\ p = Path_join "/home/tee" (Path_join name "server")).
Proof.
  exact (build_server_orderly all_succeed "/home/tee" myserver_world).
Defined.

(** ** Exit codes *)

(** [build_session] is [build_server] with the builder kept. *)
Lemma build_server_session (h : host) (initial_dir : string) (w : world) :
  build_server h initial_dir w
  = (match fst (build_session h initial_dir w) with
     | Return session => Return (snd <$> session)
     | Raise e => Raise e
     end,
     snd (build_session h initial_dir w)).
Proof.
  unfold build_server, build_session. unfold bind.
  destruct (on_stdin get_server_name w) as [[name|e] w1]; [|reflexivity].
  destruct (on_stdin select_game_mode w1) as [[mode|e] w2]; [|reflexivity].
  destruct (Confirm_ask w2) as [[customize|e] w3]; [|reflexivity].
  destruct (on_stdin (customize_build_options mode customize) w3)
    as [[[opts ninja]|e] w4]; [|reflexivity].
  destruct (Confirm_ask w4) as [[verbose|e] w5]; [|reflexivity].
  destruct (negb (check_disk_space h initial_dir)).
  { destruct (input w5) as [[line|e] w6]; reflexivity. }
  destruct (ensure_sudo h _ w5) as [[sudo|e] w6]; [|reflexivity].
  destruct (negb sudo).
  { destruct (input w6) as [[line|e] w7]; reflexivity. }
  destruct (input w6) as [[line|e] w7]; [|reflexivity].
  destruct (build_steps h _ opts ninja w7) as [[[p|]|e] w8]; reflexivity.
Qed.

(** X11: when [run] returns, its exit code is 0, 1 or 130.  It is 0
    only if [build_server] returned a build path; it is 1 if
    [build_server] returned none or raised an ordinary exception, and
    130 if [build_server] was interrupted by the user. *)
Theorem run_exit_code (h : host) (initial_dir : string) (w : world) (code : Z) :
  fst (TeemakeBuilder_run h initial_dir w) = Return code ->
  (code = 0 \/ code = 1 \/ code = 130)%Z
  /\ (code = 0%Z ->
      exists p, fst (build_server h initial_dir w) = Return (Some p))
  /\ (fst (build_server h initial_dir w) = Return None -> code = 1%Z)
  /\ (forall e, fst (build_server h initial_dir w) = Raise e ->
                code = if is_Exception e then 1%Z else 130%Z).
Proof.
  rewrite build_server_session. simpl.
  unfold TeemakeBuilder_run, run_body. rewrite bind_unfold.
  destruct (build_session h initial_dir w) as [[[[self p]|]|e] w1]; simpl.
  - unfold bind.
    destruct (input w1) as [[line|e] w2].
    + destruct (configure_server h self p w2) as [[ok|e] w3].
      * intros H; inversion H; subst.
        repeat split; auto; try discriminate. eauto.
      * destruct e; intros H; inversion H; subst;
          repeat split; auto; try discriminate; lia.
    + destruct e; intros H; inversion H; subst;
        repeat split; auto; try discriminate; lia.
  - unfold ret. intros H; inversion H; subst.
    repeat split; auto; try discriminate; lia.
  - destruct e; intros H; inversion H; subst;
      repeat split; auto; try discriminate; try lia;
      intros e' He'; inversion He'; reflexivity.
Qed.

(** On the host where [cmake] fails the program exits with code 1; where
    everything succeeds it writes the configuration and exits with 0. *)
Example run_exit_code_examples :
  fst (TeemakeBuilder_run cmake_fails "/home/tee" myserver_world) = Return 1%Z
  /\ fst (TeemakeBuilder_run all_succeed "/home/tee" full_run_world) = Return 0%Z
  /\ map fst (files (snd (TeemakeBuilder_run all_succeed "/home/tee"
                            full_run_world)))
     = ["/home/tee/myserver/server/basic_config.cfg"].
Proof. repeat split; vm_compute; reflexivity. Qed.

Lemma run_exit_code_witness :
  (1 = 0 \/ 1 = 1 \/ 1 = 130)%Z
  /\ (1%Z = 0%Z ->
      exists p, fst (build_server cmake_fails "/home/tee" myserver_world)
                = Return (Some p))
  /\ (fst (build_server cmake_fails "/home/tee" myserver_world) = Return None ->
      1%Z = 1%Z)
  /\ (forall e, fst (build_server cmake_fails "/home/tee" myserver_world)
                = Raise e ->
                1%Z = if is_Exception e then 1%Z else 130%Z).
Proof.
  apply (run_exit_code cmake_fails "/home/tee" myserver_world 1).
  vm_compute. reflexivity.
Defined.

(** ** The Ninja flag *)

Lemma ninja_table_kind (available : list BuildOption.t) (opt : BuildOption.t) :
  ninja_table available = true -> In opt available ->
  BuildOption.name opt = "-GNinja" ->
  BuildOption.option_type opt = "generator".
Proof.
  unfold ninja_table. intros H Hin Hname.
  apply andb_prop in H as [_ H]. rewrite forallb_forall in H.
  specialize (H opt Hin). rewrite Hname in H. simpl in H.
  now apply String.eqb_eq.
Qed.

Lemma ninja_table_has (available : list BuildOption.t) :
  ninja_table available = true ->
  exists opt, In opt available /\ BuildOption.name opt = "-GNinja".
Proof.
  unfold ninja_table. intros H. apply andb_prop in H as [H _].
  apply existsb_exists in H as (opt & Hin & Hname).
  exists opt. split; [exact Hin|]. now apply String.eqb_eq.
Qed.

Lemma set_generator_ninja_agrees (opt : BuildOption.t) (value : string)
    (st : cust_state) :
  ninja_agrees st -> ninja_agrees (set_generator opt value st).
Proof.
  unfold ninja_agrees, set_generator. intros Hst.
  destruct (mem (Py.upper value) truthy_tokens); simpl;
    (destruct (String.eqb_spec (BuildOption.name opt) "-GNinja") as [Heq|Hne];
     [rewrite Heq, lookup_insert_eq; split; congruence
     |rewrite lookup_insert_ne by exact Hne; exact Hst]).
Qed.

Lemma set_option_ninja_agrees (st : cust_state) (k v : string) :
  k <> "-GNinja" -> ninja_agrees st -> ninja_agrees (set_option st k v).
Proof.
  unfold ninja_agrees, set_option. intros Hk Hst. simpl.
  now rewrite lookup_insert_ne by exact Hk.
Qed.

(** The step taken for one table entry keeps the agreement. *)
Lemma entry_ninja_agrees (available : list BuildOption.t) (opt : BuildOption.t)
    (value : string) (st : cust_state) :
  switch_table available = true -> ninja_table available = true ->
  In opt available -> ninja_agrees st ->
  (BuildOption.option_type opt = "boolean"
   /\ ninja_agrees (set_option st (BuildOption.name opt) (normalized value)))
  \/ (BuildOption.option_type opt = "generator"
      /\ ninja_agrees (set_generator opt value st)).
Proof.
  intros Hsw Hnt Hin Hst.
  destruct (switch_option_kind opt (switch_table_In _ _ Hsw Hin))
    as [[Hty|[Hty _]] _].
  - left. split; [exact Hty|]. apply set_option_ninja_agrees; [|exact Hst].
    intros Hname. pose proof (ninja_table_kind _ _ Hnt Hin Hname). congruence.
  - right. split; [exact Hty|]. now apply set_generator_ninja_agrees.
Qed.

Lemma assign_by_index_ninja_agrees (available : list BuildOption.t) (idx : Z)
    (value : string) (st st' : cust_state) (pauses : nat) :
  switch_table available = true -> ninja_table available = true ->
  ninja_agrees st ->
  assign_by_index available idx value st = Next st' pauses ->
  ninja_agrees st'.
Proof.
  intros Hsw Hnt Hst. unfold assign_by_index.
  destruct (_ && _); [|intros H; inversion H; subst; exact Hst].
  destruct (available !! Z.to_nat (idx - 1)) as [opt|] eqn:Hopt; [|discriminate].
  assert (Hin : In opt available).
  { apply list_elem_of_In. eapply list_elem_of_lookup_2. exact Hopt. }
  destruct (entry_ninja_agrees available opt value st Hsw Hnt Hin Hst)
    as [[Hty Hok]|[Hty Hok]]; rewrite Hty; simpl.
  - destruct (negb (mem (Py.upper value) boolean_tokens)); intros H;
      inversion H; subst; assumption.
  - intros H; inversion H; subst. exact Hok.
Qed.

Lemma scan_by_name_ninja_agrees (available opts : list BuildOption.t)
    (option_part value : string) (st st' : cust_state) (found found' : bool)
    (pauses pauses' : nat) :
  switch_table available = true -> ninja_table available = true ->
  (forall o, In o opts -> In o available) ->
  ninja_agrees st ->
  scan_by_name opts option_part value st found pauses = (st', found', pauses') ->
  ninja_agrees st'.
Proof.
  intros Hsw Hnt. revert found pauses.
  induction opts as [|o opts IH]; intros found pauses Hsub Hst; simpl.
  - intros H; inversion H; subst; exact Hst.
  - destruct (String.eqb (BuildOption.name o) option_part).
    + destruct (entry_ninja_agrees available o value st Hsw Hnt
                  (Hsub o (or_introl eq_refl)) Hst)
        as [[Hty Hok]|[Hty Hok]]; rewrite Hty; simpl.
      * destruct (negb (mem (Py.upper value) boolean_tokens)).
        -- apply IH; [|exact Hst]. intros o' Ho'. apply Hsub. now right.
        -- intros H; inversion H; subst. exact Hok.
      * intros H; inversion H; subst. exact Hok.
    + apply IH; [|exact Hst]. intros o' Ho'. apply Hsub. now right.
Qed.

Lemma loop_body_ninja_agrees (available : list BuildOption.t)
    (st st' : cust_state) (line : string) (pauses : nat) :
  switch_table available = true -> ninja_table available = true ->
  ninja_agrees st ->
  loop_body available st line = Next st' pauses ->
  ninja_agrees st'.
Proof.
  intros Hsw Hnt Hst. unfold loop_body.
  destruct (parse_line line) as [|option_part value| |]; try discriminate.
  - destruct (Py.isdigit option_part).
    + destruct (Py.int option_part) as [idx|]; [|discriminate].
      now apply assign_by_index_ninja_agrees.
    + unfold assign_by_name.
      destruct (scan_by_name _ _ _ _ _ _) as [[st1 found] n] eqn:Hscan.
      assert (Hst1 : ninja_agrees st1).
      { eapply scan_by_name_ninja_agrees; eauto. }
      destruct (negb found); intros H; inversion H; subst; exact Hst1.
  - intros H; inversion H; subst. unfold ninja_agrees. simpl.
    rewrite lookup_insert_eq. split; reflexivity.
  - intros H; inversion H; subst; exact Hst.
Qed.

Lemma customize_loop_ninja_agrees (available : list BuildOption.t)
    (t rest : tape) (st st' : cust_state) (pending : nat) :
  switch_table available = true -> ninja_table available = true ->
  ninja_agrees st ->
  customize_loop available st pending t = (Return st', rest) ->
  ninja_agrees st'.
Proof.
  intros Hsw Hnt. revert st pending.
  induction t as [|line t IH]; intros st pending Hst; simpl; [discriminate|].
  destruct pending as [|k]; [|now apply IH].
  destruct (loop_body available st line) as [|st1 n|e] eqn:Hbody.
  - intros H; inversion H; subst; exact Hst.
  - apply IH. eapply loop_body_ninja_agrees; eauto.
  - discriminate.
Qed.

Lemma initial_state_ninja_agrees (available : list BuildOption.t) :
  switch_table available = true -> ninja_table available = true ->
  ninja_agrees (initial_state available).
Proof.
  intros Hsw Hnt. unfold ninja_agrees. simpl. split; [discriminate|].
  intros Hk. unfold initial_options in Hk. apply dict_lookup in Hk.
  apply in_map_iff in Hk as (opt & Heq & Hin). inversion Heq as [[Hname Hdef]].
  pose proof (ninja_table_kind _ _ Hnt Hin Hname) as Hty.
  destruct (switch_option_kind opt (switch_table_In _ _ Hsw Hin))
    as [[Hb|[_ Hoff]] _]; congruence.
Qed.

Lemma override_not_bare (name v flag : string) :
  Py.has_char "="%char flag = false -> name +:+ "=" +:+ v <> flag.
Proof.
  intros Hflag H. apply (f_equal (Py.has_char "="%char)) in H.
  rewrite !has_char_app, Hflag in H. simpl in H.
  rewrite orb_true_r in H. discriminate H.
Qed.

(** With the agreement in force, the flag is set exactly when the bare
    word [-GNinja] is among the overrides. *)
Lemma ninja_in_custom_options (available : list BuildOption.t) (st : cust_state) :
  switch_table available = true -> ninja_table available = true ->
  ninja_agrees st ->
  use_ninja st = true
  <-> In "-GNinja" (custom_options (current_options st) available).
Proof.
  intros Hsw Hnt Hst. unfold custom_options. rewrite in_flat_map. split.
  - intros Hn. apply Hst in Hn.
    destruct (ninja_table_has available Hnt) as (opt & Hin & Hname).
    exists opt. split; [exact Hin|].
    pose proof (ninja_table_kind _ _ Hnt Hin Hname) as Hty.
    destruct (switch_option_kind opt (switch_table_In _ _ Hsw Hin))
      as [[Hb|[_ Hoff]] _]; [congruence|].
    unfold custom_option, current_val, get.
    rewrite Hname, Hn, Hoff, Hty. simpl. now left.
  - intros (opt & Hin & Hx). apply Hst.
    unfold custom_option in Hx.
    destruct (negb _) eqn:Hch; [|destruct Hx].
    destruct (String.eqb_spec (BuildOption.option_type opt) "generator")
      as [Hty|Hty].
    + destruct (String.eqb_spec (current_val (current_options st) opt) "ON")
        as [Hv|Hv]; [|destruct Hx].
      destruct Hx as [Hname|[]].
      destruct (switch_option_kind opt (switch_table_In _ _ Hsw Hin))
        as [[Hb|[_ Hoff]] _]; [congruence|].
      unfold current_val, get in Hv. rewrite Hname in Hv.
      destruct (current_options st !! "-GNinja") as [v|]; simpl in Hv;
        congruence.
    + destruct Hx as [Hx|[]]. now apply override_not_bare in Hx.
Qed.

Lemma ninja_in_build_command (custom : list string) :
  In "-GNinja" (build_command custom) <-> In "-GNinja" custom.
Proof.
  unfold build_command. rewrite !in_app_iff. split.
  - intros [[H|H]|[H|H]]; [|exact H| |].
    + simpl in H. destruct H as [H|[H|[]]]; discriminate H.
    + destruct (negb _); simpl in H; [destruct H as [H|[]]; discriminate H
                                     |destruct H].
    + destruct (negb _); simpl in H; [destruct H as [H|[]]; discriminate H
                                     |destruct H].
  - intros H. left. now right.
Qed.

Lemma catalog_ninja (mode : GameMode.t) :
  In mode GAME_MODES ->
  ninja_table (get AVAILABLE_BUILD_OPTIONS (GameMode.name mode) []) = true
  /\ ~ In "-GNinja" (GameMode.build_opts mode).
Proof.
  intros Hmode. simpl in Hmode.
  destruct Hmode as [<-|[<-|[<-|[]]]]; (split; [vm_compute; reflexivity|]);
    simpl; intros H; repeat (destruct H as [H|H]; [discriminate H|]);
    exact H.
Qed.

Lemma customize_build_options_ninja_flag (mode : GameMode.t)
    (customize : bool) (t rest : tape) (args : list string) (ninja : bool) :
  In mode GAME_MODES ->
  customize_build_options mode customize t = (Return (args, ninja), rest) ->
  ninja = true <-> In "-GNinja" args.
Proof.
  intros Hmode.
  destruct (catalog_tables mode Hmode) as [Hsw _].
  destruct (catalog_ninja mode Hmode) as [Hnt Hdef].
  unfold customize_build_options.
  destruct customize; simpl negb; cbv iota;
    [|intros H; inversion H; subst; split; [discriminate|tauto]].
  set (available := get AVAILABLE_BUILD_OPTIONS (GameMode.name mode) []) in *.
  destruct available as [|o os] eqn:Hav.
  { destruct t; intros H; inversion H; subst. split; [discriminate|tauto]. }
  rewrite <- Hav in *.
  destruct (customize_loop available (initial_state available) 0 t)
    as [[st|e] t1] eqn:Hloop; [|discriminate].
  assert (Hst : ninja_agrees st).
  { eapply customize_loop_ninja_agrees; [exact Hsw|exact Hnt| |exact Hloop].
    now apply initial_state_ninja_agrees. }
  pose proof (ninja_in_custom_options available st Hsw Hnt Hst) as Hiff.
  unfold finish_customization.
  destruct (custom_options (current_options st) available) as [|x xs] eqn:Hxs.
  - destruct t1; intros H; inversion H; subst. split; [discriminate|tauto].
  - rewrite <- Hxs in *. intros H; inversion H; subst.
    now rewrite ninja_in_build_command.
Qed.

(** X12: for a mode of the catalog, the Ninja flag returned with the
    configure command is set exactly when the command holds the word
    [-GNinja], whatever was typed in the customization loop. *)
Theorem customize_build_options_ninja (mode : GameMode.t) (customize : bool)
    (t rest : tape) (args : list string) (ninja : bool) :
  In mode GAME_MODES ->
  customize_build_options mode customize t = (Return (args, ninja), rest) ->
  ninja = true <-> In "-GNinja" args.
Proof. exact (customize_build_options_ninja_flag mode customize t rest args ninja). Qed.

Lemma customize_build_options_ninja_witness :
  true = true
  <-> In "-GNinja"
        ["cmake"; "../source/"; "-GNinja"; "-DCLIENT=OFF"; "-DSERVER=ON"].
Proof.
  apply (customize_build_options_ninja Teeworlds true
           ["-GNinja"; "done"] [] _ true).
  - left. reflexivity.
  - vm_compute. reflexivity.
Defined.

(** ** Elevated privileges *)

(** X13: [ensure_sudo] answers True only on evidence: the process runs
    as root, or [sudo -n true] exited with code 0 within its second, or
    [sudo -v] exited with code 0 within its 30 seconds.  It goes through
    no command of the log on the way. *)
Theorem ensure_sudo_granted (h : host) (self : TeemakeBuilder) (w w' : world) :
  ensure_sudo h self w = (Return true, w') ->
  w' = w
  /\ (is_root self = true
      \/ (exists seconds out err,
            exec h (log w) ["sudo"; "-n"; "true"] None = Exits seconds 0 out err
            /\ (seconds <= 1)%Z)
      \/ (exists seconds out err,
            exec h (log w) ["sudo"; "-v"] None = Exits seconds 0 out err
            /\ (seconds <= 30)%Z)).
Proof.
  assert (Hprompt : sudo_prompt h w = (Return true, w') ->
            w' = w
            /\ exists seconds out err,
                 exec h (log w) ["sudo"; "-v"] None = Exits seconds 0 out err
                 /\ (seconds <= 30)%Z).
  { unfold sudo_prompt.
    destruct (exec h (log w) ["sudo"; "-v"] None)
      as [[|] msg| |seconds rc out err]; simpl; try discriminate.
    destruct (Z.ltb_spec 30 seconds) as [Hlate|Hok]; [discriminate|].
    cbn [returncode].
    destruct (Z.eqb_spec rc 0) as [->|Hrc]; intros H; inversion H; subst.
    split; [reflexivity|]. now exists seconds, out, err. }
  unfold ensure_sudo.
  destruct (is_root self); [intros H; inversion H; auto|].
  destruct (exec h (log w) ["sudo"; "-n"; "true"] None)
    as [[|] msg| |seconds rc out err] eqn:Hprobe; simpl; try discriminate.
  - intros H. destruct (Hprompt H) as [-> Hv]. auto.
  - destruct (Z.ltb_spec 1 seconds) as [Hlate|Hok].
    + intros H. destruct (Hprompt H) as [-> Hv]. auto.
    + cbn [returncode]. destruct (Z.eqb_spec rc 0) as [->|Hrc].
      * intros H; inversion H; subst. split; [reflexivity|].
        right. left. now exists seconds, out, err.
      * intros H. destruct (Hprompt H) as [-> Hv]. auto.
Qed.

Lemma ensure_sudo_granted_witness :
  config_world = config_world
  /\ (is_root apt_builder = true
      \/ (exists seconds out err,
            exec all_succeed (log config_world) ["sudo"; "-n"; "true"] None
            = Exits seconds 0 out err
            /\ (seconds <= 1)%Z)
      \/ (exists seconds out err,
            exec all_succeed (log config_world) ["sudo"; "-v"] None
            = Exits seconds 0 out err
            /\ (seconds <= 30)%Z)).
Proof.
  apply (ensure_sudo_granted all_succeed apt_builder config_world config_world).
  vm_compute. reflexivity.
Defined.

(** ** The configuration step *)

Lemma app_one_neq {A : Type} (l : list A) (x : A) : l ++ [x] <> l.
Proof.
  intros H. apply (f_equal (@length A)) in H.
  rewrite length_app in H. simpl in H. lia.
Qed.

(** X14: [configure_server] does not call [run_command] and leaves the
    working directory alone.  It writes nothing but [basic_config.cfg]
    in the build directory, and that at most once.  When it answers
    False nothing was written, and it answers True without a file only
    when "No Configuration" was chosen. *)
Theorem configure_server_effects (h : host) (self : TeemakeBuilder)
    (build_path : string) (w : world) :
  let r := configure_server h self build_path w in
  log (snd r) = log w
  /\ cwd (snd r) = cwd w
  /\ (files (snd r) = files w
      \/ exists text,
           files (snd r)
           = files w ++ [(Path_join build_path "basic_config.cfg", text)])
  /\ (fst r = Return false -> files (snd r) = files w)
  /\ (fst r = Return true -> files (snd r) = files w ->
      exists rest, configuration_choice (stdin w) = (Return 3%Z, rest)).
Proof.
  unfold configure_server, bind, on_stdin.
  destruct (configuration_choice (stdin w)) as [[idx|e] t1] eqn:Hchoice; simpl.
  2:{ repeat split; auto; discriminate. }
  destruct (Z.eqb_spec idx 3) as [->|Hidx].
  { repeat split; auto; try discriminate. intros _ _. now exists t1. }
  unfold _basic_configuration.
  destruct (get BASIC_CONFIG_SETTINGS _ []) as [|s0 settings];
    [repeat split; auto; discriminate|].
  unfold bind. simpl.
  destruct (collect_confirmed (s0 :: settings) [] (confirms w) t1)
    as [[values|e] [t2 a]] eqn:Hcollect; simpl.
  2:{ repeat split; auto; discriminate. }
  unfold _save_config_file. simpl.
  destruct (open_w h (log w) _) as [msg|]; simpl.
  - repeat split; auto; discriminate.
  - repeat split; auto; try discriminate; [right; eauto|].
    intros _ Hsame. now apply app_one_neq in Hsame.
Qed.

(** ** Generator options in the customization loop *)

Lemma scan_by_name_generator (opts : list BuildOption.t) (opt : BuildOption.t)
    (value : string) (st : cust_state) (found : bool) (pauses : nat) :
  List.NoDup (map BuildOption.name opts) ->
  In opt opts ->
  BuildOption.option_type opt = "generator" ->
  scan_by_name opts (BuildOption.name opt) value st found pauses
  = (set_generator opt value st, true, pauses).
Proof.
  intros Hnd Hin Hty. revert found pauses.
  induction opts as [|o opts IH]; intros found pauses; [destruct Hin|].
  simpl in Hnd. inversion Hnd as [|? ? Hfresh Hnd']; subst.
  destruct Hin as [->|Hin].
  - simpl. now rewrite String.eqb_refl, Hty.
  - simpl. destruct (String.eqb_spec (BuildOption.name o) (BuildOption.name opt))
      as [Heq|_].
    + exfalso. apply Hfresh. rewrite Heq. apply in_map. exact Hin.
    + apply IH; assumption.
Qed.

(** X15: a line that assigns [value] to a generator option, selected by
    its number or by its flag name, is never rejected: the option is set
    to ON when the value is one of ON, YES, TRUE, 1 (any case) and to OFF
    for every other text, and for [-GNinja] the Ninja flag follows. *)
Theorem generator_option_assignment (available : list BuildOption.t)
    (st : cust_state) (line option_part value : string) (opt : BuildOption.t) :
  parse_line line = Assign option_part value ->
  BuildOption.option_type opt = "generator" ->
  (Py.isdigit option_part = true /\
   (exists idx, Py.int option_part = Some idx /\ (1 <= idx)%Z /\
                available !! Z.to_nat (idx - 1) = Some opt))
  \/ (Py.isdigit option_part = false /\
      List.NoDup (map BuildOption.name available) /\
      In opt available /\ BuildOption.name opt = option_part) ->
  exists st',
    loop_body available st line = Next st' 0
    /\ current_options st'
       = <[BuildOption.name opt := normalized value]> (current_options st)
    /\ use_ninja st'
       = if String.eqb (BuildOption.name opt) "-GNinja"
         then mem (Py.upper value) truthy_tokens
         else use_ninja st.
Proof.
  intros Hparse Hty Hsel. exists (set_generator opt value st). split.
  - unfold loop_body. rewrite Hparse.
    destruct Hsel as [(Hdig & idx & Hint & Hidx & Hopt)
                     |(Hdig & Hnd & Hin & Hname)]; rewrite Hdig.
    + rewrite Hint. unfold assign_by_index.
      pose proof (lookup_lt_Some _ _ _ Hopt) as Hlt.
      replace ((1 <=? idx)%Z && (idx <=? Z.of_nat (length available))%Z)
        with true
        by (symmetry; apply andb_true_intro; split; apply Z.leb_le; lia).
      now rewrite Hopt, Hty.
    + rewrite <- Hname. unfold assign_by_name.
      now rewrite (scan_by_name_generator _ _ _ _ _ _ Hnd Hin Hty).
  - unfold set_generator, normalized.
    destruct (mem (Py.upper value) truthy_tokens); simpl;
      destruct (String.eqb _ "-GNinja"); split; reflexivity.
Qed.

Lemma generator_option_assignment_witness :
  exists st',
    loop_body teeworlds_options ninja_tools_state "6=maybe" = Next st' 0
    /\ current_options st'
       = <["-GNinja" := normalized "maybe"]> (current_options ninja_tools_state)
    /\ use_ninja st'
       = if String.eqb "-GNinja" "-GNinja"
         then mem (Py.upper "maybe") truthy_tokens
         else use_ninja ninja_tools_state.
Proof.
  apply (generator_option_assignment teeworlds_options ninja_tools_state
           "6=maybe" "6" "maybe"
           (BuildOption.mk "-GNinja" "Use Ninja build system (faster)" "OFF"
              "generator")).
  - reflexivity.
  - reflexivity.
  - left. split; [reflexivity|]. exists 6%Z.
    split; [reflexivity|]. split; [lia|reflexivity].
Defined.

(** ** Client and server are settled once *)

Lemma mentions_app (flag : string) (l1 l2 : list string) :
  mentions flag (l1 ++ l2) = mentions flag l1 + mentions flag l2.
Proof. unfold mentions. now rewrite List.filter_app, length_app. Qed.

Lemma mentions_one (flag : string) (l : list string) (o : string) :
  l = [o] -> mentions flag l = if existsb (Py.contains flag) l then 1 else 0.
Proof.
  intros ->. unfold mentions. simpl.
  destruct (Py.contains flag o); reflexivity.
Qed.

Lemma override_mentions_once (st : cust_state) (opt : BuildOption.t)
    (flag : string) :
  switch_option opt = true ->
  switch_values st ->
  flag = "-DCLIENT" \/ flag = "-DSERVER" ->
  mentions flag
    (if changed (current_options st) opt
     then spec_override (current_options st) opt else [])
  = if String.eqb (BuildOption.name opt) flag && changed (current_options st) opt
    then 1 else 0.
Proof.
  intros Hopt Hst Hflag.
  rewrite <- (override_mentions st opt flag Hopt Hst Hflag).
  destruct (changed (current_options st) opt) eqn:Hch; [|reflexivity].
  destruct (changed_override st opt Hopt Hst Hch) as [o Ho].
  now apply mentions_one with (o := o).
Qed.

Lemma overridden_absent (cur : gmap string string)
    (available : list BuildOption.t) (flag : string) :
  ~ In flag (map BuildOption.name available) ->
  overridden cur available flag = false.
Proof.
  unfold overridden. induction available as [|opt available IH]; simpl;
    [reflexivity|].
  intros Hno. destruct (String.eqb_spec (BuildOption.name opt) flag) as [Heq|_].
  - exfalso. apply Hno. now left.
  - simpl. apply IH. intros Hin. apply Hno. now right.
Qed.

Lemma overrides_mention_once (st : cust_state) (available : list BuildOption.t)
    (flag : string) :
  switch_table available = true ->
  List.NoDup (map BuildOption.name available) ->
  switch_values st ->
  flag = "-DCLIENT" \/ flag = "-DSERVER" ->
  mentions flag (spec_overrides (current_options st) available)
  = if overridden (current_options st) available flag then 1 else 0.
Proof.
  intros Htab Hnd Hst Hflag.
  induction available as [|opt available IH]; [reflexivity|].
  simpl in Htab. apply andb_prop in Htab as [Hopt Htab].
  simpl in Hnd. inversion Hnd as [|? ? Hfresh Hnd']; subst.
  change (spec_overrides (current_options st) (opt :: available))
    with ((if changed (current_options st) opt
           then spec_override (current_options st) opt else [])
          ++ spec_overrides (current_options st) available).
  rewrite mentions_app, override_mentions_once, IH by assumption.
  change (overridden (current_options st) (opt :: available) flag)
    with (String.eqb (BuildOption.name opt) flag
            && changed (current_options st) opt
          || overridden (current_options st) available flag).
  destruct (String.eqb_spec (BuildOption.name opt) flag) as [Heq|Hne]; simpl.
  - rewrite overridden_absent by (rewrite <- Heq; exact Hfresh).
    destruct (changed (current_options st) opt); reflexivity.
  - reflexivity.
Qed.

Lemma catalog_distinct (mode : GameMode.t) :
  In mode GAME_MODES ->
  List.NoDup
    (map BuildOption.name (get AVAILABLE_BUILD_OPTIONS (GameMode.name mode) []))
  /\ GameMode.build_opts mode
     = ["cmake"; "../source/"; "-DCLIENT=OFF"; "-DSERVER=ON"].
Proof.
  intros Hmode. simpl in Hmode.
  destruct Hmode as [<-|[<-|[<-|[]]]]; (split; [|reflexivity]);
    vm_compute; nodup_strings.
Qed.

(** X16: for a mode of the catalog, whatever was typed, the configure
    command that [customize_build_options] returns is [cmake ../source/]
    followed by flags of which exactly one mentions [-DCLIENT] and
    exactly one mentions [-DSERVER]: each of the two is settled once,
    by the user's override or else by the forced default. *)
Theorem customize_build_options_settles (mode : GameMode.t) (customize : bool)
    (t rest : tape) (args : list string) (ninja : bool) :
  In mode GAME_MODES ->
  customize_build_options mode customize t = (Return (args, ninja), rest) ->
  exists flags,
    args = "cmake" :: "../source/" :: flags
    /\ mentions "-DCLIENT" flags = 1
    /\ mentions "-DSERVER" flags = 1.
Proof.
  intros Hmode.
  destruct (catalog_tables mode Hmode) as [Hsw _].
  destruct (catalog_distinct mode Hmode) as [Hnd Hdef].
  assert (Hplain : exists flags,
             GameMode.build_opts mode = "cmake" :: "../source/" :: flags
             /\ mentions "-DCLIENT" flags = 1
             /\ mentions "-DSERVER" flags = 1).
  { rewrite Hdef. eexists. repeat split. }
  unfold customize_build_options.
  destruct customize; simpl negb; cbv iota;
    [|intros H; inversion H; subst; exact Hplain].
  set (available := get AVAILABLE_BUILD_OPTIONS (GameMode.name mode) []) in *.
  destruct available as [|o os] eqn:Hav.
  { destruct t; intros H; inversion H; subst. exact Hplain. }
  rewrite <- Hav in *.
  destruct (customize_loop available (initial_state available) 0 t)
    as [[st|e] t1] eqn:Hloop; [|discriminate].
  assert (Hst : switch_values st).
  { eapply customize_loop_switch_values; [exact Hsw| |exact Hloop].
    now apply initial_state_switch_values. }
  unfold finish_customization.
  destruct (custom_options (current_options st) available) as [|x xs] eqn:Hxs.
  { destruct t1; intros H; inversion H; subst. exact Hplain. }
  rewrite <- Hxs. intros H; inversion H; subst. clear H.
  rewrite custom_options_spec. unfold build_command.
  rewrite !overrides_mention by auto.
  rewrite <- app_assoc. eexists. split; [reflexivity|].
  rewrite !mentions_app, !overrides_mention_once by auto.
  destruct (overridden _ _ "-DCLIENT"), (overridden _ _ "-DSERVER");
    split; reflexivity.
Qed.

Lemma customize_build_options_settles_witness :
  exists flags,
    ["cmake"; "../source/"; "-DSERVER=OFF"; "-DTOOLS=ON"; "-GNinja";
     "-DCLIENT=OFF"]
    = "cmake" :: "../source/" :: flags
    /\ mentions "-DCLIENT" flags = 1
    /\ mentions "-DSERVER" flags = 1.
Proof.
  apply (customize_build_options_settles Teeworlds true
           ["4=on"; "-GNinja"; "2=off"; "done"; "x"] ["x"] _ true).
  - left. reflexivity.
  - vm_compute. reflexivity.
Defined.

(** ** One generator from configure to compile *)

Lemma adds_quiet {A : Type} (P : event -> Prop) (m : M A) :
  (forall w, log (snd (m w)) = log w) -> adds P m.
Proof.
  intros Hq w. exists []. rewrite app_nil_r. split; [apply Hq|constructor].
Qed.

Lemma adds_ret {A : Type} (P : event -> Prop) (a : A) : adds P (ret a).
Proof. now apply adds_quiet. Qed.

Lemma adds_bind {A B : Type} (P : event -> Prop) (m : M A) (k : A -> M B) :
  adds P m -> (forall a, adds P (k a)) -> adds P (bind m k).
Proof.
  intros Hm Hk w. rewrite bind_unfold.
  destruct (Hm w) as (l1 & Hl1 & HP1).
  destruct (m w) as [[a|e] w1]; simpl in Hl1.
  - destruct (Hk a w1) as (l2 & Hl2 & HP2).
    exists (l1 ++ l2). split; [rewrite Hl2, Hl1; now rewrite app_assoc|].
    now apply Forall_app.
  - now exists l1.
Qed.

Lemma adds_try_finally {A : Type} (P : event -> Prop) (body : M A)
    (cleanup : M unit) :
  adds P body -> adds P cleanup -> adds P (try_finally body cleanup).
Proof.
  intros Hb Hc w. unfold try_finally.
  destruct (Hb w) as (l1 & Hl1 & HP1).
  destruct (body w) as [r w1]; simpl in Hl1.
  destruct (Hc w1) as (l2 & Hl2 & HP2).
  destruct (cleanup w1) as [[u|e] w2]; simpl in Hl2; simpl;
    (exists (l1 ++ l2); split; [rewrite Hl2, Hl1; now rewrite app_assoc|];
     now apply Forall_app).
Qed.

Lemma adds_run_command (P : event -> Prop) (h : host) (self : TeemakeBuilder)
    (description : string) (command : list string) (cwd_arg : option string) :
  (forall r, P {| ev_description := description; ev_command := command;
                  ev_cwd := cwd_arg; ev_result := r |}) ->
  adds P (run_command h self description command cwd_arg).
Proof.
  intros HP w. unfold run_command. simpl. eexists. split; [reflexivity|].
  constructor; [apply HP|constructor].
Qed.

Lemma other_stage_commands (opts : list string) (ninja : bool) (ev : event) :
  other_stage ev -> stage_commands opts ninja ev.
Proof. intros [Hc Hm]. split; congruence. Qed.

Lemma install_dependencies_adds (h : host) (self : TeemakeBuilder)
    (opts : list string) (ninja use_ninja : bool) :
  adds (stage_commands opts ninja) (install_dependencies h self use_ninja).
Proof.
  intros w.
  destruct (install_dependencies_log h self use_ninja w) as (_ & l & Hl & HP).
  exists l. split; [exact Hl|].
  eapply List.Forall_impl; [|exact HP]. apply other_stage_commands.
Qed.

Lemma clone_repository_adds (h : host) (self : TeemakeBuilder)
    (opts : list string) (ninja : bool) (source_path : string) :
  adds (stage_commands opts ninja) (clone_repository h self source_path).
Proof.
  intros w.
  destruct (clone_repository_log h self source_path w) as (ev & Hl & HP).
  exists [ev]. split; [exact Hl|].
  constructor; [now apply other_stage_commands|constructor].
Qed.

Lemma configure_build_adds (h : host) (self : TeemakeBuilder)
    (opts : list string) (ninja : bool) (build_path : string) :
  adds (stage_commands opts ninja) (configure_build h self build_path opts).
Proof.
  unfold configure_build. apply adds_bind.
  - apply adds_run_command. intros r. split; [reflexivity|discriminate].
  - intros [[success out] err]. apply adds_ret.
Qed.

Lemma compile_server_adds (h : host) (self : TeemakeBuilder)
    (opts : list string) (ninja : bool) (build_path : string) :
  adds (stage_commands opts ninja) (compile_server h self build_path ninja).
Proof.
  unfold compile_server. destruct ninja.
  - apply adds_bind.
    + apply adds_run_command. intros r. split; [discriminate|].
      intros _. split; reflexivity.
    + intros [[success out] err]. apply adds_ret.
  - apply adds_bind.
    + apply adds_run_command. intros r. split; [discriminate|].
      intros _. split; discriminate.
    + intros [[success out] err]. apply adds_ret.
Qed.

Lemma pipeline_adds (h : host) (self : TeemakeBuilder)
    (source_path build_path : string) (opts : list string) (ninja : bool) :
  adds (stage_commands opts ninja)
       (pipeline h self source_path build_path opts ninja).
Proof.
  unfold pipeline.
  apply adds_bind; [apply clone_repository_adds|].
  intros [|]; simpl; [|apply adds_ret].
  apply adds_bind; [apply configure_build_adds|].
  intros [|]; simpl; [|apply adds_ret].
  apply adds_bind; [apply compile_server_adds|].
  intros [|]; simpl; apply adds_ret.
Qed.

Lemma build_steps_adds (h : host) (self : TeemakeBuilder)
    (opts : list string) (ninja : bool) :
  adds (stage_commands opts ninja) (build_steps h self opts ninja).
Proof.
  unfold build_steps.
  apply adds_bind; [apply install_dependencies_adds|].
  intros [|]; simpl.
  2:{ apply adds_bind; [|intros _; apply adds_ret].
      apply adds_quiet. intros w. apply input_same_place. }
  apply adds_bind.
  - apply adds_quiet. intros w.
    unfold try_except, bind, Path_mkdir, Path_absolute, Path_cwd, ret.
    destruct (mkdir h (log w) _); simpl; [reflexivity|].
    destruct (mkdir h (log w) _); reflexivity.
  - intros [[[source_path build_path] start_dir]|]; [|apply adds_ret].
    apply adds_try_finally; [apply pipeline_adds|].
    now apply adds_quiet.
Qed.

Lemma stage_commands_coherent (opts : list string) (ninja : bool)
    (new : list event) :
  (ninja = true <-> In "-GNinja" opts) ->
  Forall (stage_commands opts ninja) new ->
  generator_coherent new.
Proof.
  intros Hflag Hall ev_c ev_m Hc Hm Hisc Hism.
  rewrite List.Forall_forall in Hall.
  destruct (Hall ev_c Hc) as [Hopts _]. destruct (Hall ev_m Hm) as [_ Hninja].
  rewrite (Hopts Hisc), (Hninja Hism). exact Hflag.
Qed.

(** X17: in the commands a build launches, the compile stage and the
    configure stage agree on the generator: the compile command is
    [ninja] exactly when the configure command holds [-GNinja].  So
    [ninja] is never run on Makefiles, nor [make] on Ninja files. *)
Theorem build_server_one_generator (h : host) (initial_dir : string)
    (w : world) :
  exists new,
    log (snd (build_server h initial_dir w)) = log w ++ new
    /\ forall ev_c ev_m, In ev_c new -> In ev_m new ->
         is_configure ev_c = true -> is_compile ev_m = true ->
         (ev_command ev_m = ["ninja"] <-> In "-GNinja" (ev_command ev_c)).
Proof.
  set (Q := fun r : outcome (option string) * world =>
    exists new, log r.2 = log w ++ new /\ generator_coherent new).
  change (Q (build_server h initial_dir w)).
  assert (Hstop : forall (r : outcome (option string)) (w1 : world),
            log w1 = log w -> Q (r, w1)).
  { intros r w1 Hl. exists []. rewrite app_nil_r.
    split; [exact Hl|]. intros ev_c ev_m []. }
  assert (Hpause : forall w1, log w1 = log w -> Q ((run input; ret None) w1)).
  { intros w1 Hl. rewrite bind_unfold.
    pose proof (input_same_place w1) as [_ Hin].
    destruct (input w1) as [[line|e] w2]; simpl in Hin; unfold ret;
      apply Hstop; congruence. }
  unfold build_server.
  apply bind_elim; [intros name w1 H1|intros e w1 H1];
    pose proof (same_place_eq _ _ _ _ (on_stdin_same_place _ w) H1) as [_ Hl1];
    [|now apply Hstop].
  apply bind_elim; [intros mode w2 H2|intros e w2 H2];
    pose proof (same_place_eq _ _ _ _ (on_stdin_same_place _ w1) H2) as [_ Hl2];
    [|apply Hstop; congruence].
  assert (Hmode : In mode GAME_MODES).
  { unfold on_stdin in H2.
    destruct (select_game_mode (stdin w1)) as [r t'] eqn:Hsel.
    inversion H2; subst.
    exact (proj1 (select_game_mode_outcomes (stdin w1)) mode t' Hsel). }
  apply bind_elim; [intros customize w3 H3|intros e w3 H3];
    pose proof (same_place_eq _ _ _ _ (Confirm_ask_same_place w2) H3) as [_ Hl3];
    [|apply Hstop; congruence].
  apply bind_elim; [intros [opts ninja] w4 H4|intros e w4 H4];
    pose proof (same_place_eq _ _ _ _ (on_stdin_same_place _ w3) H4) as [_ Hl4];
    [|apply Hstop; congruence].
  assert (Hflag : ninja = true <-> In "-GNinja" opts).
  { unfold on_stdin in H4.
    destruct (customize_build_options mode customize (stdin w3))
      as [r t'] eqn:Hcust.
    inversion H4; subst.
    exact (customize_build_options_ninja_flag mode customize (stdin w3) t'
             opts ninja Hmode Hcust). }
  apply bind_elim; [intros verbose w5 H5|intros e w5 H5];
    pose proof (same_place_eq _ _ _ _ (Confirm_ask_same_place w4) H5) as [_ Hl5];
    [|apply Hstop; congruence].
  destruct (negb (check_disk_space h initial_dir));
    [apply Hpause; congruence|].
  apply bind_elim; [intros sudo w6 H6|intros e w6 H6];
    (match type of H6 with
     | ensure_sudo _ ?self _ = _ =>
         assert (Hw6 : w6 = w5)
           by (rewrite <- (ensure_sudo_same_place h self w5); now rewrite H6)
     end);
    subst w6; [|apply Hstop; congruence].
  destruct (negb sudo); [apply Hpause; congruence|].
  apply bind_elim; [intros enter w7 H7|intros e w7 H7];
    pose proof (same_place_eq _ _ _ _ (input_same_place w5) H7) as [_ Hl7];
    [|apply Hstop; congruence].
  match goal with |- Q (build_steps h ?self opts ninja w7) =>
    destruct (build_steps_adds h self opts ninja w7) as (l & Hlog & Hall) end.
  exists l. split; [rewrite Hlog; f_equal; congruence|].
  now apply (stage_commands_coherent opts ninja).
Qed.

(** With Ninja asked for, the four commands of a successful build. *)
Example ninja_build_commands :
  map ev_command (log (snd (build_server all_succeed "/home/tee" ninja_world)))
  = [["apt-get"; "install"; "-y"; "build-essential"; "cmake"; "git";
      "python3"; "libfreetype6-dev"; "libsdl2-dev"; "libpnglite-dev";
      "libwavpack-dev"; "ninja-build"];
     ["git"; "clone"; "--recursive";
      "https://github.com/teeworlds/teeworlds.git"; "."];
     ["cmake"; "../source/"; "-GNinja"; "-DCLIENT=OFF"; "-DSERVER=ON"];
     ["ninja"]].
Proof. vm_compute. reflexivity. Qed.
